(** * T2A assistant: CCAM search, association classifier, compatibility
      checker and billing plan

    A shallow embedding of the decision logic of the repository
    ([ccam_search.py], [validate_associations.py],
    [integrate_associations.py], [build_ccam_db.py]) together with the
    properties stated about it.

    Conventions.
    - A Python [str] is a [string]; one [ascii] stands for one character.
    - A value that may be [None] is an [option] (SQL NULL likewise), and a
      function argument that may be [None] or a [str] is a [pyval].
    - The Unicode database and the locale-independent string methods of
      CPython ([str.lower], [str.upper], [unicodedata.normalize],
      [unicodedata.combining], the classes behind [\w], [\s] and [\d]) are
      not part of the repository: they are the fields of the class
      [TextOps].  [ascii_text] is the instance that agrees with CPython on
      code points below 128.
    - The SQLite FTS5 engine (the [MATCH] operator and its [rank] column)
      is the class [Fts5]; [plain_fts] is a small instance used to run the
      model.
    - SQL tables are lists of rows in rowid order; a [SELECT] without
      [ORDER BY] returns the rows in that order and [ORDER BY] is a stable
      sort of it.
    - REAL columns (ICR weights, tariffs, the FTS rank) are rationals:
      only their order is used. *)

From Stdlib Require Import List String Ascii ZArith QArith Bool Lia.
From Stdlib Require Import Permutation Sorted PeanoNat.
Import ListNotations.

Local Open Scope string_scope.
Local Open Scope list_scope.

(** ** Python values and outcomes *)

Inductive pyval : Type :=
| PyNone
| PyStr (s : string).

Inductive exn : Type :=
| AttributeError.

(** The outcome of a call: a returned value or a raised exception. *)
Inductive result (A : Type) : Type :=
| Return (a : A)
| Raise (e : exn).

Arguments Return {A} a.
Arguments Raise {A} e.

(** Truth value of a nullable text column ([if row["date_end"]]). *)
Definition truthy (v : option string) : bool :=
  match v with
  | None => false
  | Some s => negb (s =? "")
  end.

Definition is_nil {A : Type} (l : list A) : bool :=
  match l with
  | [] => true
  | _ :: _ => false
  end.

(** [enumerate(l, start)] *)
Fixpoint enumerate_from {A : Type} (start : nat) (l : list A) : list (nat * A) :=
  match l with
  | [] => []
  | x :: l' => (start, x) :: enumerate_from (S start) l'
  end.

Definition enumerate {A : Type} (l : list A) : list (nat * A) :=
  enumerate_from 0 l.

(** [sep.join(parts)] *)
Fixpoint join (sep : string) (parts : list string) : string :=
  match parts with
  | [] => ""
  | [p] => p
  | p :: rest => p ++ sep ++ join sep rest
  end.

(** ** Character-wise string helpers *)

Fixpoint str_map (f : ascii -> ascii) (s : string) : string :=
  match s with
  | EmptyString => EmptyString
  | String c s' => String (f c) (str_map f s')
  end.

Fixpoint str_filter (p : ascii -> bool) (s : string) : string :=
  match s with
  | EmptyString => EmptyString
  | String c s' => if p c then String c (str_filter p s') else str_filter p s'
  end.

(** [c] occurs in [s]. *)
Fixpoint str_In (c : ascii) (s : string) : Prop :=
  match s with
  | EmptyString => False
  | String d s' => d = c \/ str_In c s'
  end.

(** ** The text operations supplied by CPython *)

Class TextOps : Type := {
  str_lower : string -> string;           (* str.lower() *)
  str_upper : string -> string;           (* str.upper() *)
  nfkd : string -> string;                (* unicodedata.normalize('NFKD', s) *)
  combining : ascii -> bool;              (* unicodedata.combining(c) != 0 *)
  is_alnum : ascii -> bool;               (* letters and digits: str.isalnum *)
  is_space : ascii -> bool;               (* str.isspace, the class \s *)
  is_decimal : ascii -> bool;             (* the class \d *)
  space_is_space : is_space " "%char = true;
  str_lower_empty : str_lower "" = ""
}.

Section Normalizer.

Context {U : TextOps}.

(** The regex class [\w]: alphanumeric characters and the underscore. *)
Definition is_word (c : ascii) : bool :=
  is_alnum c || (c =? "_")%char.

(** [str.lstrip()], [str.rstrip()], [str.strip()] *)
Fixpoint py_lstrip (s : string) : string :=
  match s with
  | EmptyString => EmptyString
  | String c s' => if is_space c then py_lstrip s' else s
  end.

Fixpoint py_rstrip (s : string) : string :=
  match s with
  | EmptyString => EmptyString
  | String c s' =>
      let r := py_rstrip s' in
      if (r =? "") && is_space c then EmptyString else String c r
  end.

Definition py_strip (s : string) : string := py_rstrip (py_lstrip s).

(** [str.split()]: maximal runs of non-whitespace characters.  [split_aux s]
    is the run that starts [s] (empty when [s] starts with whitespace) and
    the tokens after it. *)
Definition push_token (w : string) (ts : list string) : list string :=
  match w with
  | EmptyString => ts
  | String _ _ => w :: ts
  end.

Fixpoint split_aux (s : string) : string * list string :=
  match s with
  | EmptyString => (EmptyString, [])
  | String c s' =>
      let (w, ts) := split_aux s' in
      if is_space c then (EmptyString, push_token w ts) else (String c w, ts)
  end.

Definition py_split (s : string) : list string :=
  let (w, ts) := split_aux s in push_token w ts.

(** [re.sub(r'[^\w\s]', ' ', text)] *)
Definition sub_nonword (text : string) : string :=
  str_map (fun c => if is_word c || is_space c then c else " "%char) text.

(** [re.sub(r'\s+', ' ', text)]: every maximal run of whitespace becomes one
    space. *)
Fixpoint sub_spaces (text : string) : string :=
  match text with
  | EmptyString => EmptyString
  | String c s' =>
      if is_space c then
        match s' with
        | EmptyString => String " "%char EmptyString
        | String d _ => if is_space d then sub_spaces s' else String " "%char (sub_spaces s')
        end
      else String c (sub_spaces s')
  end.

(** [strip_accents] (both modules define the same function). *)
Definition strip_accents (text : pyval) : string :=
  match text with
  | PyNone => ""
  | PyStr s =>
      if s =? "" then ""
      else str_filter (fun c => negb (combining c)) (nfkd s)
  end.

(** [ccam_search.normalize_query]: [query.lower()] is evaluated first, so a
    [None] query raises [AttributeError] before [strip_accents] is reached. *)
Definition normalize_query (query : pyval) : result (list string) :=
  match query with
  | PyNone => Raise AttributeError
  | PyStr q =>
      let text := strip_accents (PyStr (py_strip (str_lower q))) in
      let text := sub_nonword text in
      let tokens := py_split text in
      Return (if (1 <? List.length tokens)%nat
              then filter (fun t => (2 <? String.length t)%nat) tokens
              else tokens)
  end.

(** [build_ccam_db.normalize_for_search] *)
Definition normalize_for_search (text : pyval) : string :=
  match text with
  | PyNone => ""
  | PyStr s =>
      if s =? "" then ""
      else
        let text := strip_accents (PyStr (str_lower s)) in
        let text := sub_nonword text in
        py_strip (sub_spaces text)
  end.

End Normalizer.

(** ** The ASCII instance of the text operations *)

Definition in_range (lo hi : nat) (c : ascii) : bool :=
  let n := nat_of_ascii c in (lo <=? n)%nat && (n <=? hi)%nat.

Definition ascii_lower (c : ascii) : ascii :=
  if in_range 65 90 c then ascii_of_nat (nat_of_ascii c + 32) else c.

Definition ascii_upper (c : ascii) : ascii :=
  if in_range 97 122 c then ascii_of_nat (nat_of_ascii c - 32) else c.

Definition ascii_is_alnum (c : ascii) : bool :=
  in_range 48 57 c || in_range 65 90 c || in_range 97 122 c.

Definition ascii_is_space (c : ascii) : bool :=
  in_range 9 13 c || in_range 28 32 c.

#[export] Instance ascii_text : TextOps := {|
  str_lower := str_map ascii_lower;
  str_upper := str_map ascii_upper;
  nfkd := fun s => s;
  combining := fun _ => false;
  is_alnum := ascii_is_alnum;
  is_space := ascii_is_space;
  is_decimal := in_range 48 57;
  space_is_space := eq_refl;
  str_lower_empty := eq_refl
|}.

(** ** Stable sorting

    [list.sort(key=...)] and SQL [ORDER BY] over rows in rowid order:
    insertion from the right puts an element in front of the first element
    that is not smaller, so equal keys keep their order. *)

Section Sorting.

Context {A : Type} (le : A -> A -> bool).

Fixpoint insert_sorted (x : A) (l : list A) : list A :=
  match l with
  | [] => [x]
  | y :: l' => if le x y then x :: l else y :: insert_sorted x l'
  end.

Definition sort_by (l : list A) : list A := fold_right insert_sorted [] l.

End Sorting.

(** [LIMIT ?]: a negative bound means no bound. *)
Definition sql_limit {A : Type} (n : Z) (l : list A) : list A :=
  if (n <? 0)%Z then l else firstn (Z.to_nat n) l.

(** The SQLite [LIKE] operator: [%] matches any run of characters, [_] any
    single character, and ASCII letters match regardless of case. *)
Fixpoint like (pat s : string) : bool :=
  match pat with
  | EmptyString =>
      match s with
      | EmptyString => true
      | String _ _ => false
      end
  | String p pat' =>
      if (p =? "%")%char then
        (fix any (t : string) : bool :=
           like pat' t ||
           match t with
           | EmptyString => false
           | String _ t' => any t'
           end) s
      else
        match s with
        | EmptyString => false
        | String c s' =>
            ((p =? "_")%char || (ascii_lower p =? ascii_lower c)%char) && like pat' s'
        end
  end.

(** ** The database *)

(** Table [ccam_codes] (primary key [code]); the columns the engine reads. *)
Module CcamCode.
Record row : Type := {
  code : string;
  label : string;
  label_normalized : string;
  icr_public : option Q;
  tarif_base : option Q;
  chapter_num : option string;
  date_end : option string
}.
End CcamCode.

Inductive AssociationType : Type :=
| complementary_gesture
| complementary_anesthesia.

Definition AssociationType_eqb (a b : AssociationType) : bool :=
  match a, b with
  | complementary_gesture, complementary_gesture => true
  | complementary_anesthesia, complementary_anesthesia => true
  | _, _ => false
  end.

(** Table [associations], primary key [(code, associated_code, activity)]. *)
Module Association.
Record row : Type := {
  code : string;
  associated_code : string;
  association_type : AssociationType;
  activity : string
}.
End Association.

Inductive Confidence : Type :=
| verified
| same_chapter
| cross_chapter.

(** Table [frequent_associations], primary key [(code, associated_code)]. *)
Module Frequent.
Record row : Type := {
  code : string;
  associated_code : string;
  label : option string;
  icr_public : option Q;
  confidence : Confidence;
  rank : Z
}.
End Frequent.

Record Db : Type := {
  ccam_codes : list CcamCode.row;
  associations : list Association.row;
  frequent_associations : list Frequent.row
}.

(** [SELECT ... FROM ccam_codes WHERE code = ?] followed by [fetchone()]. *)
Definition select_code (d : Db) (c : string) : option CcamCode.row :=
  find (fun r => CcamCode.code r =? c) (ccam_codes d).

(** [SELECT ... FROM associations WHERE code = ? AND associated_code = ?] *)
Definition select_assoc (d : Db) (c1 c2 : string) : list Association.row :=
  filter (fun a => (Association.code a =? c1) && (Association.associated_code a =? c2))
         (associations d).

(** [COALESCE(x, 0)] and Python's [x or 0] on a REAL column. *)
Definition coalesce0 (x : option Q) : Q :=
  match x with
  | Some q => q
  | None => 0%Q
  end.

(** ** The FTS5 engine *)

Class Fts5 : Type := {
  (* [text MATCH query] on the indexed column [label_normalized] *)
  fts_match : string -> string -> bool;
  (* the [rank] column of a matching row: smaller is better *)
  fts_rank : list CcamCode.row -> string -> CcamCode.row -> Q
}.

(** ** The cursor: every executed statement is recorded *)

Inductive Tier : Type :=
| Conjunctive
| Disjunctive
| Substring.

Inductive Stmt : Type :=
| SelectFts (tier : Tier) (fts_query : string) (active_only : bool) (limit : Z)
| SelectLike (like_pattern : string) (active_only : bool) (limit : Z)
| CountAssociations (codes : list string)
| CountFrequent (codes : list string).

Definition tier_of (s : Stmt) : option Tier :=
  match s with
  | SelectFts t _ _ _ => Some t
  | SelectLike _ _ _ => Some Substring
  | CountAssociations _ | CountFrequent _ => None
  end.

Definition Cursor (A : Type) : Type := list Stmt -> A * list Stmt.

Definition ret {A : Type} (a : A) : Cursor A := fun log => (a, log).

Definition bind {A B : Type} (m : Cursor A) (f : A -> Cursor B) : Cursor B :=
  fun log => let (a, log') := m log in f a log'.

Definition execute {A : Type} (s : Stmt) (rows : A) : Cursor A :=
  fun log => (rows, log ++ [s]).

Notation "x <- m ;; k" := (bind m (fun x => k))
  (at level 61, m at next level, right associativity).

(** ** Search resolver ([CCAMSearch.search]) *)

Module Hit.
Record t : Type := {
  row : CcamCode.row;
  fts_rank : Q;
  assoc_count : nat
}.
End Hit.

Section Search.

Context {U : TextOps} {F : Fts5}.

(** [active_filter]: the clause [AND cc.date_end IS NULL], or nothing. *)
Definition active_filter (active_only : bool) (r : CcamCode.row) : bool :=
  if active_only then
    match CcamCode.date_end r with
    | None => true
    | Some _ => false
    end
  else true.

(** Strategies 1 and 2: the FTS query, ordered by rank, capped. *)
Definition select_fts (d : Db) (q : string) (active_only : bool) (limit : Z)
  : list (CcamCode.row * Q) :=
  sql_limit limit
    (sort_by (fun a b => Qle_bool (snd a) (snd b))
       (map (fun r => (r, fts_rank (ccam_codes d) q r))
          (filter (fun r => fts_match q (CcamCode.label_normalized r) && active_filter active_only r)
             (ccam_codes d)))).

(** Strategy 3: the LIKE query, in table order, capped; [0 as fts_rank]. *)
Definition select_like (d : Db) (pattern : string) (active_only : bool) (limit : Z)
  : list (CcamCode.row * Q) :=
  sql_limit limit
    (map (fun r => (r, 0%Q))
       (filter (fun r => like pattern (CcamCode.label_normalized r) && active_filter active_only r)
          (ccam_codes d))).

(** [SELECT code, COUNT( * ) ... WHERE code IN (...) GROUP BY code] read
    through [dict.get(code, 0)]. *)
Definition count_rows {R : Type} (code_of : R -> string) (tbl : list R)
  (codes : list string) (c : string) : nat :=
  if existsb (String.eqb c) codes
  then List.length (filter (fun r => code_of r =? c) tbl)
  else 0%nat.

Definition search (d : Db) (query : pyval) (limit : Z) (active_only : bool)
  : Cursor (result (list Hit.t)) :=
  match normalize_query query with
  | Raise e => ret (Raise e)
  | Return tokens =>
      if is_nil tokens then ret (Return [])
      else
        let fts_query := join " " tokens in
        results <- execute (SelectFts Conjunctive fts_query active_only limit)
                     (select_fts d fts_query active_only limit) ;;
        results <-
          (if is_nil results && (1 <? List.length tokens)%nat then
             let or_query := join " OR " tokens in
             execute (SelectFts Disjunctive or_query active_only limit)
               (select_fts d or_query active_only limit)
           else ret results) ;;
        results <-
          (if is_nil results then
             let like_pattern := ("%" ++ join "%" tokens ++ "%")%string in
             execute (SelectLike like_pattern active_only limit)
               (select_like d like_pattern active_only limit)
           else ret results) ;;
        if is_nil results then ret (Return [])
        else
          let codes := map (fun r => CcamCode.code (fst r)) results in
          official_counts <- execute (CountAssociations codes)
                               (count_rows Association.code (associations d) codes) ;;
          freq_counts <- execute (CountFrequent codes)
                           (count_rows Frequent.code (frequent_associations d) codes) ;;
          ret (Return
                 (map (fun r =>
                         {| Hit.row := fst r;
                            Hit.fts_rank := snd r;
                            Hit.assoc_count :=
                              (official_counts (CcamCode.code (fst r))
                               + freq_counts (CcamCode.code (fst r)))%nat |})
                    results))
  end.

(** The statements a call executes, starting from an empty log. *)
Definition search_log (d : Db) (query : pyval) (limit : Z) (active_only : bool)
  : list Stmt := snd (search d query limit active_only []).

Definition search_result (d : Db) (query : pyval) (limit : Z) (active_only : bool)
  : result (list Hit.t) := fst (search d query limit active_only []).

(** The rows a call settles on, whichever tier produced them. *)
Definition settled_rows (d : Db) (tokens : list string) (limit : Z) (active_only : bool)
  : list (CcamCode.row * Q) :=
  let r1 := select_fts d (join " " tokens) active_only limit in
  let r2 := if is_nil r1 && (1 <? List.length tokens)%nat
            then select_fts d (join " OR " tokens) active_only limit else r1 in
  if is_nil r2
  then select_like d ("%" ++ join "%" tokens ++ "%")%string active_only limit
  else r2.

(** The tiers a call attempts, in the order of their statements. *)
Definition tiers_attempted (d : Db) (query : pyval) (limit : Z) (active_only : bool)
  : list Tier :=
  flat_map (fun s => match tier_of s with Some t => [t] | None => [] end)
           (search_log d query limit active_only).

End Search.

(** ** Compatibility checker ([CCAMSearch.check_compatibility]) *)

(** The issues; the [message] of an issue is a rendering of its fields. *)
Inductive Issue : Type :=
| unknown_code (code : string)
| expired_code (code : string) (date_end : option string)
| has_association (codes : string * string)
    (association_type : AssociationType) (activity : string)
| ok.

Section Checker.

Context {U : TextOps}.

(** The body of the inner loop for one pair [i < j]. *)
Definition check_pair (d : Db) (code1 code2 : string) : list Issue :=
  let assoc12 := select_assoc d code1 code2 in
  let assoc21 := select_assoc d code2 code1 in
  if negb (is_nil assoc12) || negb (is_nil assoc21) then
    map (fun a =>
           has_association (code1, code2)
             (Association.association_type a) (Association.activity a))
        assoc12
  else [].

(** The body of the outer loop for position [i]. *)
Definition check_code (d : Db) (codes : list string) (i : nat) (code1 : string)
  : list Issue :=
  match select_code d code1 with
  | None => [unknown_code code1]
  | Some row =>
      (if truthy (CcamCode.date_end row)
       then [expired_code code1 (CcamCode.date_end row)]
       else [])
      ++ flat_map (fun jc => if (fst jc <=? i)%nat then [] else check_pair d code1 (snd jc))
           (enumerate codes)
  end.

Definition check_compatibility (d : Db) (codes : list string) : list Issue :=
  let codes := map str_upper codes in
  let issues := flat_map (fun ic => check_code d codes (fst ic) (snd ic)) (enumerate codes) in
  if is_nil issues then [ok] else issues.

End Checker.

(** ** Billing plan assembler ([CCAMSearch.get_billing_plan]) *)

Module Item.
Record t : Type := {
  code : string;
  label : option string;
  icr_public : option Q;
  tarif_base : option Q;
  date_end : option string;
  expired : bool
}.
End Item.

Module FreqItem.
Record t : Type := {
  code : string;
  label : option string;
  icr_public : option Q;
  tarif_base : option Q;
  confidence : Confidence;
  rank : Z
}.
End FreqItem.

Module Plan.
Record t : Type := {
  main_code : CcamCode.row;
  complementary_gestures : list Item.t;
  anesthesia_codes : list Item.t;
  frequent_associations : list FreqItem.t
}.
End Plan.

(** A column of the table on the right of a [LEFT JOIN]. *)
Definition joined {A : Type} (col : CcamCode.row -> option A)
  (cc : option CcamCode.row) : option A :=
  match cc with
  | Some r => col r
  | None => None
  end.

(** [CASE WHEN a.association_type = 'complementary_gesture' THEN 0 ELSE 1 END] *)
Definition type_key (t : AssociationType) : nat :=
  match t with
  | complementary_gesture => 0
  | complementary_anesthesia => 1
  end.

(** The [ORDER BY] of the official query: gestures first, then
    [COALESCE(cc.icr_public, 0) DESC]. *)
Definition official_le (x y : Association.row * option CcamCode.row) : bool :=
  let kx := type_key (Association.association_type (fst x)) in
  let ky := type_key (Association.association_type (fst y)) in
  (kx <? ky)%nat ||
  ((kx =? ky)%nat &&
   Qle_bool (coalesce0 (joined CcamCode.icr_public (snd y)))
            (coalesce0 (joined CcamCode.icr_public (snd x)))).

Definition select_official (d : Db) (code : string)
  : list (Association.row * option CcamCode.row) :=
  sort_by official_le
    (map (fun a => (a, select_code d (Association.associated_code a)))
       (filter (fun a => Association.code a =? code) (associations d))).

Definition select_frequent (d : Db) (code : string)
  : list (Frequent.row * option CcamCode.row) :=
  sort_by (fun x y => (Frequent.rank (fst x) <=? Frequent.rank (fst y))%Z)
    (map (fun fa => (fa, select_code d (Frequent.associated_code fa)))
       (filter (fun fa => Frequent.code fa =? code) (frequent_associations d))).

Definition official_item (r : Association.row * option CcamCode.row) : Item.t :=
  {| Item.code := Association.associated_code (fst r);
     Item.label := joined (fun c => Some (CcamCode.label c)) (snd r);
     Item.icr_public := joined CcamCode.icr_public (snd r);
     Item.tarif_base := joined CcamCode.tarif_base (snd r);
     Item.date_end := joined CcamCode.date_end (snd r);
     Item.expired := truthy (joined CcamCode.date_end (snd r)) |}.

Definition frequent_item (r : Frequent.row * option CcamCode.row) : FreqItem.t :=
  {| FreqItem.code := Frequent.associated_code (fst r);
     FreqItem.label := Frequent.label (fst r);
     FreqItem.icr_public := Frequent.icr_public (fst r);
     FreqItem.tarif_base := joined CcamCode.tarif_base (snd r);
     FreqItem.confidence := Frequent.confidence (fst r);
     FreqItem.rank := Frequent.rank (fst r) |}.

Section Billing.

Context {U : TextOps}.

Definition get_code (d : Db) (code : string) : option CcamCode.row :=
  select_code d (str_upper code).

Definition get_billing_plan (d : Db) (code : string) : option Plan.t :=
  let code := str_upper code in
  match get_code d code with
  | None => None
  | Some main =>
      let rows := select_official d code in
      let is_anesthesia r :=
        AssociationType_eqb (Association.association_type (fst r)) complementary_anesthesia in
      let gestures := map official_item (filter (fun r => negb (is_anesthesia r)) rows) in
      let anesthesia := map official_item (filter is_anesthesia rows) in
      let official_codes := map (fun r => Association.associated_code (fst r)) rows in
      let frequent :=
        map frequent_item
          (filter (fun r =>
                     negb (existsb (String.eqb (Frequent.associated_code (fst r))) official_codes))
             (select_frequent d code)) in
      Some {| Plan.main_code := main;
              Plan.complementary_gestures := gestures;
              Plan.anesthesia_codes := anesthesia;
              Plan.frequent_associations := frequent |}
  end.

End Billing.

(** ** Association classifier ([validate_associations.validate]) *)

(** A Python [dict] built by successive assignments: the last binding of a
    key is the one that is read. *)
Fixpoint dict_get {V : Type} (k : string) (items : list (string * V)) : option V :=
  match items with
  | [] => None
  | (k', v) :: rest =>
      match dict_get k rest with
      | Some v' => Some v'
      | None => if k' =? k then Some v else None
      end
  end.

Module Info.
Record t : Type := {
  label : string;
  active : bool;
  chapter : option string;
  icr_public : option Q
}.
End Info.

(** A scraped candidate: [assoc["code"]] and the optional key ["label"]. *)
Module Candidate.
Record t : Type := {
  code : string;
  label : option string
}.
End Candidate.

Module Valid.
Record t : Type := {
  code : string;
  label : string;
  icr_public : option Q;
  confidence : Confidence
}.
End Valid.

(** [load_ccam_data] returns the dictionary [codes] and the dictionary
    [official], read through [official.get(source_code, set())]. *)
Definition load_codes (d : Db) : list (string * Info.t) :=
  map (fun r =>
         (CcamCode.code r,
          {| Info.label := CcamCode.label r;
             Info.active := match CcamCode.date_end r with None => true | Some _ => false end;
             Info.chapter := CcamCode.chapter_num r;
             Info.icr_public := CcamCode.icr_public r |}))
      (ccam_codes d).

Definition official_targets (d : Db) (source_code : string) : list string :=
  map Association.associated_code
    (filter (fun a => Association.code a =? source_code) (associations d)).

Definition load_ccam_data (d : Db) : list (string * Info.t) * (string -> list string) :=
  (load_codes d, official_targets d).

(** What happens to one candidate; the removals are the counters of the
    validation report. *)
Inductive Outcome : Type :=
| removed_self_ref
| removed_not_found
| removed_expired
| kept (v : Valid.t).

Definition option_string_eqb (a b : option string) : bool :=
  match a, b with
  | Some x, Some y => x =? y
  | None, None => true
  | _, _ => false
  end.

Definition classify (codes : list (string * Info.t)) (official_set : list string)
  (source_code : string) (source_info : Info.t) (assoc : Candidate.t) : Outcome :=
  let assoc_code := Candidate.code assoc in
  if assoc_code =? source_code then removed_self_ref
  else
    match dict_get assoc_code codes with
    | None => removed_not_found
    | Some assoc_info =>
        if negb (Info.active assoc_info) then removed_expired
        else
          let confidence :=
            if existsb (String.eqb assoc_code) official_set then verified
            else if truthy (Info.chapter source_info)
                    && truthy (Info.chapter assoc_info)
                    && option_string_eqb (Info.chapter source_info) (Info.chapter assoc_info)
                 then same_chapter
                 else cross_chapter in
          kept {| Valid.code := assoc_code;
                  Valid.label := match Candidate.label assoc with
                                 | Some l => l
                                 | None => Info.label assoc_info
                                 end;
                  Valid.icr_public := Info.icr_public assoc_info;
                  Valid.confidence := confidence |}
    end.

Definition confidence_order (c : Confidence) : nat :=
  match c with
  | verified => 0
  | same_chapter => 1
  | cross_chapter => 2
  end.

(** The sort key [(confidence_order, -(icr_public or 0))], compared as
    tuples. *)
Definition valid_le (x y : Valid.t) : bool :=
  let kx := confidence_order (Valid.confidence x) in
  let ky := confidence_order (Valid.confidence y) in
  (kx <? ky)%nat ||
  ((kx =? ky)%nat &&
   Qle_bool (- coalesce0 (Valid.icr_public x)) (- coalesce0 (Valid.icr_public y))).

Definition valid_assocs (codes : list (string * Info.t)) (official_set : list string)
  (source_code : string) (source_info : Info.t) (assoc_list : list Candidate.t)
  : list Valid.t :=
  flat_map (fun assoc =>
              match classify codes official_set source_code source_info assoc with
              | kept v => [v]
              | _ => []
              end)
           assoc_list.

(** [validate]: [scraped] is the loaded JSON object, as its items in order;
    the result is the dictionary [validated], as its items in order. *)
Definition validate (d : Db) (scraped : list (string * list Candidate.t))
  : list (string * list Valid.t) :=
  let (codes, official) := load_ccam_data d in
  flat_map (fun entry =>
              let source_code := fst entry in
              match dict_get source_code codes with
              | None => []
              | Some source_info =>
                  let valid :=
                    valid_assocs codes (official source_code)
                      source_code source_info (snd entry) in
                  if is_nil valid then [] else [(source_code, sort_by valid_le valid)]
              end)
           scraped.

(** ** Integration ([integrate_associations.integrate]) *)

(** [INSERT OR IGNORE] under [PRIMARY KEY (code, associated_code)]. *)
Definition frequent_key_eqb (x y : Frequent.row) : bool :=
  (Frequent.code x =? Frequent.code y)
  && (Frequent.associated_code x =? Frequent.associated_code y).

Definition insert_or_ignore (tbl : list Frequent.row) (r : Frequent.row)
  : list Frequent.row :=
  if existsb (fun x => frequent_key_eqb x r) tbl then tbl else tbl ++ [r].

Definition frequent_row (source_code : string) (ra : nat * Valid.t) : Frequent.row :=
  {| Frequent.code := source_code;
     Frequent.associated_code := Valid.code (snd ra);
     Frequent.label := Some (Valid.label (snd ra));
     Frequent.icr_public := Valid.icr_public (snd ra);
     Frequent.confidence := Valid.confidence (snd ra);
     Frequent.rank := Z.of_nat (fst ra) |}.

(** The inner loop: [for rank, assoc in enumerate(assoc_list, 1)]. *)
Definition integrate_source (tbl : list Frequent.row) (entry : string * list Valid.t)
  : list Frequent.row :=
  fold_left (fun t ra => insert_or_ignore t (frequent_row (fst entry) ra))
            (enumerate_from 1 (snd entry)) tbl.

(** The table is dropped and recreated, then filled. *)
Definition integrate (validated : list (string * list Valid.t)) : list Frequent.row :=
  fold_left integrate_source validated [].

(** The rows of [rs] that successive [INSERT OR IGNORE]s add to the table
    [t]: a row is dropped when its key is already present. *)
Fixpoint kept_rows (t rs : list Frequent.row) : list Frequent.row :=
  match rs with
  | [] => []
  | r :: rs' =>
      if existsb (fun x => frequent_key_eqb x r) t
      then kept_rows t rs'
      else r :: kept_rows (t ++ [r]) rs'
  end.

Definition frequent_key (r : Frequent.row) : string * string :=
  (Frequent.code r, Frequent.associated_code r).

(** ** Catalog builder: the association edges
    ([build_ccam_db.parse_complementary_file]) *)

(** Column indices of the sheet (the dictionary [COL]). *)
Definition COL_code_sub : nat := 4.
Definition COL_text : nat := 5.
Definition COL_line_type : nat := 10.
Definition COL_gestures_text : nat := 34.
Definition COL_gestures_act123 : nat := 35.
Definition COL_gestures_act4 : nat := 36.
Definition COL_gestures_act5 : nat := 37.
Definition COL_anesthesia : nat := 38.

(** [INSERT OR IGNORE] under
    [PRIMARY KEY (code, associated_code, activity)]. *)
Definition association_key_eqb (x y : Association.row) : bool :=
  (Association.code x =? Association.code y)
  && (Association.associated_code x =? Association.associated_code y)
  && (Association.activity x =? Association.activity y).

Definition insert_association (tbl : list Association.row) (r : Association.row)
  : list Association.row :=
  if existsb (fun x => association_key_eqb x r) tbl then tbl else tbl ++ [r].

Section Builder.

Context {U : TextOps}.

(** A cell of the sheet, already rendered by [str]; [None] is an empty
    cell. *)
Definition safe_str (val : option string) : option string :=
  match val with
  | None => None
  | Some s => let t := py_strip s in if t =? "" then None else Some t
  end.

Definition is_upper_AZ (c : ascii) : bool := in_range 65 90 c.

(** The match of [[A-Z]{4}\d{3}] at the start of [s], and what follows. *)
Definition code_prefix (s : string) : option (string * string) :=
  match s with
  | String a (String b (String c (String d (String e (String f (String g rest)))))) =>
      if is_upper_AZ a && is_upper_AZ b && is_upper_AZ c && is_upper_AZ d
         && is_decimal e && is_decimal f && is_decimal g
      then Some (String a (String b (String c (String d (String e (String f (String g "")))))),
                 rest)
      else None
  | _ => None
  end.

(** [CCAM_CODE_RE.match(s)] for [^[A-Z]{4}\d{3}$]; [$] also matches just
    before a final newline. *)
Definition CCAM_CODE_RE_match (s : string) : bool :=
  match code_prefix s with
  | Some (_, rest) =>
      match rest with
      | EmptyString => true
      | String c EmptyString => (c =? "010")%char
      | _ => false
      end
  | None => false
  end.

(** [re.findall(r'[A-Z]{4}\d{3}', s)]: leftmost matches, not overlapping;
    [skip] counts the characters of the current match still to pass. *)
Fixpoint findall_from (skip : nat) (s : string) : list string :=
  match s with
  | EmptyString => []
  | String _ s' =>
      match skip with
      | S k => findall_from k s'
      | O =>
          match code_prefix s with
          | Some (m, _) => m :: findall_from 6 s'
          | None => findall_from 0 s'
          end
      end
  end.

Definition findall_codes (s : string) : list string := findall_from 0 s.

Definition cell (row : list (option string)) (col : nat) : option string :=
  nth col row None.

(** The edges one column of a code line declares. *)
Definition column_edges (row : list (option string)) (code : string)
  (col : nat) (ty : AssociationType) (activity : string) : list Association.row :=
  match safe_str (cell row col) with
  | None => []
  | Some val =>
      flat_map (fun assoc_code =>
                  if negb (assoc_code =? code)
                  then [{| Association.code := code;
                           Association.associated_code := assoc_code;
                           Association.association_type := ty;
                           Association.activity := activity |}]
                  else [])
               (findall_codes val)
  end.

(** The rows one sheet row tries to insert into [associations], in order.
    The guards are those of the loop body; the insertion into [ccam_codes]
    and the chapter bookkeeping do not touch [associations]. *)
Definition row_edges (row : list (option string)) : list Association.row :=
  if (List.length row <? 52)%nat then []
  else
    let line_type := safe_str (cell row COL_line_type) in
    let code_sub := safe_str (cell row COL_code_sub) in
    let text := safe_str (cell row COL_text) in
    match code_sub with
    | None => []
    | Some code =>
        if negb (CCAM_CODE_RE_match code) then []
        else
          let is_title :=
            match line_type with
            | Some lt => (lt =? "T") || (lt =? "NT") || (lt =? "M")
            | None => false
            end in
          let is_label :=
            match line_type with
            | Some lt => (lt =? "L") || (lt =? "LV")
            | None => true
            end in
          if (negb (truthy text) || negb is_label) && is_title then []
          else if negb (truthy text) then []
          else
            column_edges row code COL_gestures_text complementary_gesture "text"
            ++ column_edges row code COL_gestures_act123 complementary_gesture "act123"
            ++ column_edges row code COL_gestures_act4 complementary_gesture "act4"
            ++ column_edges row code COL_gestures_act5 complementary_gesture "act5"
            ++ column_edges row code COL_anesthesia complementary_anesthesia "anesthesia"
    end.

(** The [associations] table after the sheet is parsed; the first row of
    the sheet is the header. *)
Definition parse_complementary_file (rows : list (list (option string)))
  : list Association.row :=
  fold_left insert_association (flat_map row_edges (tl rows)) [].

End Builder.

(** ** Associations of a code ([CCAMSearch.get_associations]) *)

Module AssocItem.
Record t : Type := {
  associated_code : string;
  association_type : AssociationType;
  activity : string;
  label : option string;
  icr_public : option Q
}.
End AssocItem.

(** The text stored in the column [association_type]. *)
Definition type_name (t : AssociationType) : string :=
  match t with
  | complementary_gesture => "complementary_gesture"
  | complementary_anesthesia => "complementary_anesthesia"
  end.

(** [ORDER BY a.association_type, a.associated_code]: TEXT columns compare
    byte by byte. *)
Definition association_le (x y : Association.row) : bool :=
  let tx := type_name (Association.association_type x) in
  let ty := type_name (Association.association_type y) in
  String.ltb tx ty
  || ((tx =? ty)
      && String.leb (Association.associated_code x) (Association.associated_code y)).

Definition association_item (d : Db) (a : Association.row) : AssocItem.t :=
  let cc := select_code d (Association.associated_code a) in
  {| AssocItem.associated_code := Association.associated_code a;
     AssocItem.association_type := Association.association_type a;
     AssocItem.activity := Association.activity a;
     AssocItem.label := joined (fun c => Some (CcamCode.label c)) cc;
     AssocItem.icr_public := joined CcamCode.icr_public cc |}.

Definition get_associations {U : TextOps} (d : Db) (code : string) : list AssocItem.t :=
  map (association_item d)
    (sort_by association_le
       (filter (fun a => Association.code a =? str_upper code) (associations d))).

(** ** Catalog builder: the code table
    ([build_ccam_db.parse_complementary_file]) *)

Definition COL_icr_public : nat := 28.
Definition COL_chap_num : nat := 42.
Definition COL_date_end : nat := 51.

(** [INSERT OR REPLACE] under [PRIMARY KEY (code)]: a row with the same
    code is deleted and the new row is added at the end. *)
Definition replace_code (tbl : list CcamCode.row) (r : CcamCode.row)
  : list CcamCode.row :=
  filter (fun x => negb (CcamCode.code x =? CcamCode.code r)) tbl ++ [r].

Section BuilderCodes.

Context {U : TextOps}.

(** [float(val)] on the text of a cell; [None] when it raises. *)
Variable py_float : string -> option Q.

Definition safe_float (val : option string) : option Q :=
  match val with
  | None => None
  | Some s => py_float s
  end.

(** The code and the label of a sheet row that passes the guards of the
    loop body, the same guards as in [row_edges]. *)
Definition code_line (row : list (option string)) : option (string * string) :=
  if (List.length row <? 52)%nat then None
  else
    let line_type := safe_str (cell row COL_line_type) in
    let code_sub := safe_str (cell row COL_code_sub) in
    let text := safe_str (cell row COL_text) in
    match code_sub with
    | None => None
    | Some code =>
        if negb (CCAM_CODE_RE_match code) then None
        else
          let is_title :=
            match line_type with
            | Some lt => (lt =? "T") || (lt =? "NT") || (lt =? "M")
            | None => false
            end in
          let is_label :=
            match line_type with
            | Some lt => (lt =? "L") || (lt =? "LV")
            | None => true
            end in
          if (negb (truthy text) || negb is_label) && is_title then None
          else if negb (truthy text) then None
          else
            match text with
            | Some label => Some (code, label)
            | None => None
            end
    end.

(** One iteration: the chapter context is updated on every row of 52
    cells, then a code line replaces the row of its code.  The builder's
    table has no [tarif_base] column yet. *)
Definition build_step (st : option string * list CcamCode.row)
  (row : list (option string)) : option string * list CcamCode.row :=
  if (List.length row <? 52)%nat then st
  else
    let chap :=
      match safe_str (cell row COL_chap_num) with
      | Some c => Some c
      | None => fst st
      end in
    match code_line row with
    | None => (chap, snd st)
    | Some (code, label) =>
        (chap,
         replace_code (snd st)
           {| CcamCode.code := code;
              CcamCode.label := label;
              CcamCode.label_normalized := normalize_for_search (PyStr label);
              CcamCode.icr_public := safe_float (cell row COL_icr_public);
              CcamCode.tarif_base := None;
              CcamCode.chapter_num := chap;
              CcamCode.date_end := safe_str (cell row COL_date_end) |})
    end.

Definition build_codes (rows : list (list (option string))) : list CcamCode.row :=
  snd (fold_left build_step (tl rows) (None, [])).

(** The database after [parse_complementary_file]. *)
Definition build_db (rows : list (list (option string))) : Db :=
  {| ccam_codes := build_codes rows;
     associations := parse_complementary_file rows;
     frequent_associations := [] |}.

End BuilderCodes.

(** ** Catalog builder: the chapter table
    ([build_ccam_db.parse_complementary_file]) *)

(** Table [chapters], primary key [num]. *)
Module Chapter.
Record row : Type := {
  num : string;
  title : string;
  level : nat;
  parent_num : option string
}.
End Chapter.

(** Number and title columns of the four levels, in the order of the
    loop. *)
Definition chapter_columns : list (nat * nat) :=
  [ (42, 43); (44, 45); (46, 47); (48, 49) ]%nat.

(** [INSERT OR IGNORE] under [PRIMARY KEY (num)]. *)
Definition insert_chapter (tbl : list Chapter.row) (r : Chapter.row) : list Chapter.row :=
  if existsb (fun x => Chapter.num x =? Chapter.num r) tbl then tbl else tbl ++ [r].

(** [current_chapter] (the three numbers that serve as parents),
    [chapters_seen] and the table. *)
Record ChapterState : Type := {
  cur_chap : option string;
  cur_subchap : option string;
  cur_para : option string;
  chapters_seen : list string;
  chapters : list Chapter.row
}.

Definition or_current (new cur : option string) : option string :=
  if truthy new then new else cur.

Section BuilderChapters.

Context {U : TextOps}.

(** One turn of the loop over the levels. *)
Definition register_chapter (row : list (option string)) (st : ChapterState)
  (lc : nat * (nat * nat)) : ChapterState :=
  let level := fst lc in
  let num_val := safe_str (cell row (fst (snd lc))) in
  let title_val := safe_str (cell row (snd (snd lc))) in
  match num_val, title_val with
  | Some n, Some t =>
      if truthy num_val && truthy title_val && negb (existsb (String.eqb n) (chapters_seen st))
      then
        let parent :=
          match level with
          | 1 => cur_chap st
          | 2 => cur_subchap st
          | 3 => cur_para st
          | _ => None
          end%nat in
        {| cur_chap := cur_chap st;
           cur_subchap := cur_subchap st;
           cur_para := cur_para st;
           chapters_seen := n :: chapters_seen st;
           chapters :=
             insert_chapter (chapters st)
               {| Chapter.num := n; Chapter.title := t;
                  Chapter.level := level; Chapter.parent_num := parent |} |}
      else st
  | _, _ => st
  end.

(** The chapter part of one iteration: the context is updated first, then
    the four levels are registered. *)
Definition chapter_step (st : ChapterState) (row : list (option string)) : ChapterState :=
  if (List.length row <? 52)%nat then st
  else
    let st' :=
      {| cur_chap := or_current (safe_str (cell row 42)) (cur_chap st);
         cur_subchap := or_current (safe_str (cell row 44)) (cur_subchap st);
         cur_para := or_current (safe_str (cell row 46)) (cur_para st);
         chapters_seen := chapters_seen st;
         chapters := chapters st |} in
    fold_left (register_chapter row) (enumerate chapter_columns) st'.

Definition initial_chapters : ChapterState :=
  {| cur_chap := None; cur_subchap := None; cur_para := None;
     chapters_seen := []; chapters := [] |}.

Definition build_chapters (rows : list (list (option string))) : list Chapter.row :=
  chapters (fold_left chapter_step (tl rows) initial_chapters).

End BuilderChapters.

(** ** A small FTS instance and a sample catalog

    [plain_fts] matches whole words: all the words of the query, or any of
    them when the query joins them with [OR]; every match has rank 0. *)

Definition plain_match (q text : string) : bool :=
  let ws := py_split (U := ascii_text) q in
  let has w := existsb (String.eqb w) (py_split (U := ascii_text) text) in
  if existsb (String.eqb "OR") ws
  then existsb has (filter (fun w => negb (w =? "OR")) ws)
  else forallb has ws.

#[export] Instance plain_fts : Fts5 := {|
  fts_match := plain_match;
  fts_rank := fun _ _ _ => 0%Q
|}.

Definition mk_code (c l : string) (chapter : option string) (icr : option Q)
  (date_end : option string) : CcamCode.row :=
  {| CcamCode.code := c;
     CcamCode.label := l;
     CcamCode.label_normalized := normalize_for_search (U := ascii_text) (PyStr l);
     CcamCode.icr_public := icr;
     CcamCode.tarif_base := None;
     CcamCode.chapter_num := chapter;
     CcamCode.date_end := date_end |}.

Definition mk_edge (c t : string) (ty : AssociationType) (act : string)
  : Association.row :=
  {| Association.code := c;
     Association.associated_code := t;
     Association.association_type := ty;
     Association.activity := act |}.

Definition mk_freq (c t : string) (conf : Confidence) (rk : Z) : Frequent.row :=
  {| Frequent.code := c;
     Frequent.associated_code := t;
     Frequent.label := None;
     Frequent.icr_public := None;
     Frequent.confidence := conf;
     Frequent.rank := rk |}.

Definition sample_codes : list CcamCode.row :=
  [ mk_code "AAAA001" "Acte test chirurgical" (Some "01") (Some 10%Q) None;
    mk_code "BBBB002" "Geste complementaire de test" (Some "01") (Some 5%Q) None;
    mk_code "CCCC003" "Anesthesie pour acte" (Some "02") None None;
    mk_code "DDDD004" "Acte test ancien" (Some "01") None (Some "2020-01-01") ].

Definition sample_db : Db :=
  {| ccam_codes := sample_codes;
     associations := [ mk_edge "AAAA001" "BBBB002" complementary_gesture "text" ];
     frequent_associations := [] |}.

(** A table with an edge whose source is not in the catalog. *)
Definition orphan_db : Db :=
  {| ccam_codes := sample_codes;
     associations := [ mk_edge "XXXX009" "AAAA001" complementary_gesture "text" ];
     frequent_associations := [] |}.

(** A sheet row of 52 cells with the columns the builder reads for the
    edges. *)
Definition sheet_row (code_sub text line_type gestures_text gestures_act123 anesthesia
                      : option string) : list (option string) :=
  [None; None; None; None; code_sub; text; None; None; None; None; line_type]
  ++ repeat None 23
  ++ [gestures_text; gestures_act123; None; None; anesthesia]
  ++ repeat None 13.

Definition sample_sheet : list (list (option string)) :=
  [ sheet_row (Some "code") (Some "texte") None None None None;
    sheet_row (Some " AAAA001 ") (Some "Acte test chirurgical") (Some "L")
      (Some "BBBB002, AAAA001 ou CCCC003") (Some "BBBB002") (Some "CCCC003 AAAA001");
    sheet_row (Some "01.02") (Some "Titre de paragraphe") (Some "T")
      (Some "DDDD004") None None ].

(** The catalog with the edges of [sample_sheet] and three observed
    associations of [AAAA001]. *)
Definition billing_db : Db :=
  {| ccam_codes := sample_codes;
     associations := parse_complementary_file (U := ascii_text) sample_sheet;
     frequent_associations :=
       [ mk_freq "AAAA001" "DDDD004" cross_chapter 3;
         mk_freq "AAAA001" "BBBB002" verified 1;
         mk_freq "AAAA001" "EEEE005" same_chapter 2;
         mk_freq "BBBB002" "AAAA001" same_chapter 1 ] |}.

Definition mk_cand (c : string) : Candidate.t :=
  {| Candidate.code := c; Candidate.label := None |}.

(** Scraped candidates of [AAAA001]: an official target of the same chapter,
    a code of another chapter, an expired code, the code itself and an
    unknown code. *)
Definition sample_scraped : list (string * list Candidate.t) :=
  [ ("AAAA001", [ mk_cand "CCCC003"; mk_cand "DDDD004"; mk_cand "AAAA001";
                  mk_cand "BBBB002"; mk_cand "ZZZZ999" ]);
    ("BBBB002", [ mk_cand "BBBB002" ]);
    ("YYYY000", [ mk_cand "AAAA001" ]) ].

(** The same associated code scraped twice. *)
Definition repeated_scraped : list (string * list Candidate.t) :=
  [ ("AAAA001", [ mk_cand "BBBB002"; mk_cand "BBBB002"; mk_cand "CCCC003" ]) ].

Definition dummy_plan : Plan.t :=
  {| Plan.main_code := mk_code "" "" None None None;
     Plan.complementary_gestures := [];
     Plan.anesthesia_codes := [];
     Plan.frequent_associations := [] |}.

(** The plan of [AAAA001] on [billing_db], evaluated. *)
Definition billing_plan_AAAA001 : Plan.t :=
  Eval vm_compute in
    match get_billing_plan (U := ascii_text) billing_db "AAAA001" with
    | Some plan => plan
    | None => dummy_plan
    end.

(** The kinds of issue. *)
Definition is_unknown_code (i : Issue) : bool :=
  match i with
  | unknown_code _ => true
  | _ => false
  end.

Definition is_expired_code (i : Issue) : bool :=
  match i with
  | expired_code _ _ => true
  | _ => false
  end.

(** The code is absent from the catalog. *)
Definition absent (d : Db) (c : string) : bool :=
  match select_code d c with
  | None => true
  | Some _ => false
  end.

(** The issues of the inner loop of position [i], for a code of the
    catalog. *)
Definition pair_issues (d : Db) (codes : list string) (i : nat) (code1 : string)
  : list Issue :=
  flat_map (fun jc => if (fst jc <=? i)%nat then [] else check_pair d code1 (snd jc))
           (enumerate codes).

(** The [expired_code] issue of a code, if it has one. *)
Definition expired_issue (d : Db) (c : string) : list Issue :=
  match select_code d c with
  | Some row =>
      if truthy (CcamCode.date_end row)
      then [expired_code c (CcamCode.date_end row)]
      else []
  | None => []
  end.


(** The order in which [validate] leaves the entries of a source code. *)
Definition tier_then_icr (x y : Valid.t) : Prop :=
  (confidence_order (Valid.confidence x) < confidence_order (Valid.confidence y))%nat
  \/ (confidence_order (Valid.confidence x) = confidence_order (Valid.confidence y)
      /\ (coalesce0 (Valid.icr_public y) <= coalesce0 (Valid.icr_public x))%Q).

(** The sample catalog with the observed associations integrated from
    the classifier's output, and the plan of [AAAA001] on it. *)
Definition integrated_db : Db :=
  {| ccam_codes := ccam_codes sample_db;
     associations := associations sample_db;
     frequent_associations := integrate (validate sample_db sample_scraped) |}.

Definition integrated_plan : Plan.t :=
  Eval vm_compute in
    match get_billing_plan (U := ascii_text) integrated_db "AAAA001" with
    | Some plan => plan
    | None => dummy_plan
    end.

Definition association_key (r : Association.row) : string * string * string :=
  (Association.code r, Association.associated_code r, Association.activity r).

(** The pairs of type and activity the builder writes. *)
Definition builder_kinds : list (AssociationType * string) :=
  [ (complementary_gesture, "text"); (complementary_gesture, "act123");
    (complementary_gesture, "act4"); (complementary_gesture, "act5");
    (complementary_anesthesia, "anesthesia") ].

(** The words of a label: the text of [normalize_for_search] just before
    whitespace is collapsed, split. *)
Definition label_words {U : TextOps} (s : string) : list string :=
  py_split (sub_nonword (strip_accents (PyStr (str_lower s)))).

(** The text after collapsing and right-trimming, read off the split. *)
Definition collapsed_of (p : string * list string) : string :=
  match p with
  | (EmptyString, []) => ""
  | (EmptyString, ts) => String " " (join " " ts)
  | (w, ts) => join " " (w :: ts)
  end.

(** A token: not empty and without whitespace. *)
Definition is_token {U : TextOps} (t : string) : Prop :=
  t <> "" /\ forall c, str_In c t -> is_space c = false.

(** What the builder guarantees of a row of [ccam_codes]. *)
Definition built_row {U : TextOps} (r : CcamCode.row) : Prop :=
  CcamCode.label_normalized r = normalize_for_search (PyStr (CcamCode.label r))
  /\ CCAM_CODE_RE_match (CcamCode.code r) = true
  /\ CcamCode.label r <> ""
  /\ CcamCode.date_end r <> Some "".

(** A sheet row of 52 cells with the chapter and sub-chapter columns. *)
Definition chapter_sheet_row (chap_num chap_title subchap_num subchap_title
                              : option string) : list (option string) :=
  repeat None 42 ++ [chap_num; chap_title; subchap_num; subchap_title] ++ repeat None 6.

Definition chapter_sheet : list (list (option string)) :=
  [ chapter_sheet_row None None None None;
    chapter_sheet_row (Some "01") (Some "Systeme nerveux") None None;
    chapter_sheet_row None None (Some "01.01") (Some "Actes diagnostiques");
    chapter_sheet_row (Some "02") None (Some "02.01") (Some "Sans chapitre titre");
    chapter_sheet_row (Some "01") (Some "Autre titre") (Some "01.01") (Some "Autre") ].

(** The number column of a level. *)
Definition level_column (level : nat) : nat :=
  match level with
  | 0 => 42
  | 1 => 44
  | 2 => 46
  | _ => 48
  end%nat.

(** The parent a chapter row may carry: none at level 0, otherwise nothing
    or a number [p] taken from [from]. *)
Definition parent_from (from : nat -> string -> Prop) (r : Chapter.row) : Prop :=
  match Chapter.level r with
  | O => Chapter.parent_num r = None
  | S k => forall p, Chapter.parent_num r = Some p -> from k p
  end.

(** What the fold over the rows maintains, for rows taken from [sheet]. *)
Definition chapters_invariant {U : TextOps} (sheet : list (list (option string))) (st : ChapterState)
  : Prop :=
  let from := fun k p =>
                exists row, In row sheet /\ safe_str (cell row (level_column k)) = Some p in
  NoDup (map Chapter.num (chapters st))
  /\ (forall r, In r (chapters st) ->
        (Chapter.level r <= 3)%nat
        /\ Chapter.num r <> "" /\ Chapter.title r <> ""
        /\ parent_from from r)
  /\ (forall p, cur_chap st = Some p -> from 0%nat p)
  /\ (forall p, cur_subchap st = Some p -> from 1%nat p)
  /\ (forall p, cur_para st = Some p -> from 2%nat p).

(** * Properties *)

(** ** Lists, sorting and limits *)

Section SortFacts.

Context {A : Type} (le : A -> A -> bool).

Lemma insert_sorted_perm (x : A) (l : list A) :
  Permutation (insert_sorted le x l) (x :: l).
Proof.
  induction l as [|y l IH]; simpl.
  - apply Permutation_refl.
  - destruct (le x y).
    + apply Permutation_refl.
    + apply Permutation_trans with (y :: x :: l).
      * now apply perm_skip.
      * apply perm_swap.
Qed.

Lemma sort_by_perm (l : list A) : Permutation (sort_by le l) l.
Proof.
  induction l as [|x l IH]; simpl.
  - apply perm_nil.
  - apply Permutation_trans with (x :: sort_by le l).
    + apply insert_sorted_perm.
    + now apply perm_skip.
Qed.

Lemma sort_by_In (x : A) (l : list A) : In x (sort_by le l) <-> In x l.
Proof.
  split; apply Permutation_in.
  - apply sort_by_perm.
  - apply Permutation_sym, sort_by_perm.
Qed.

Lemma sort_by_nil_iff (l : list A) : sort_by le l = [] <-> l = [].
Proof.
  split; intro H.
  - apply Permutation_nil. rewrite <- H. apply sort_by_perm.
  - now subst.
Qed.

Hypothesis le_total : forall a b, le a b = true \/ le b a = true.
Hypothesis le_trans : forall a b c, le a b = true -> le b c = true -> le a c = true.

Lemma insert_sorted_sorted (x : A) (l : list A) :
  StronglySorted (fun a b => le a b = true) l ->
  StronglySorted (fun a b => le a b = true) (insert_sorted le x l).
Proof.
  induction l as [|y l IH]; simpl; intro Hs.
  - constructor; [constructor | constructor].
  - inversion Hs as [|? ? Hs' Hall]; subst.
    destruct (le x y) eqn:Hxy.
    + constructor; [exact Hs|].
      constructor; [exact Hxy|].
      rewrite Forall_forall in *. intros z Hz. eapply le_trans; eauto.
    + constructor; [now apply IH|].
      rewrite Forall_forall in *. intros z Hz.
      apply (Permutation_in _ (insert_sorted_perm x l)) in Hz.
      destruct Hz as [<-|Hz]; [|now apply Hall].
      destruct (le_total x y) as [H|H]; [congruence|exact H].
Qed.

Lemma sort_by_sorted (l : list A) :
  StronglySorted (fun a b => le a b = true) (sort_by le l).
Proof.
  induction l as [|x l IH]; simpl.
  - constructor.
  - now apply insert_sorted_sorted.
Qed.

End SortFacts.


Lemma is_nil_true {A : Type} (l : list A) : is_nil l = true <-> l = [].
Proof. destruct l; simpl; split; congruence. Qed.

Lemma StronglySorted_filter {A : Type} (R : A -> A -> Prop) (p : A -> bool) (l : list A) :
  StronglySorted R l -> StronglySorted R (filter p l).
Proof.
  induction 1 as [|x l Hs IH Hall]; simpl.
  - constructor.
  - destruct (p x); [|exact IH].
    constructor; [exact IH|].
    rewrite Forall_forall in *. intros y Hy.
    apply filter_In in Hy. now apply Hall.
Qed.

Lemma StronglySorted_map {A B : Type} (R : B -> B -> Prop) (f : A -> B) (l : list A) :
  StronglySorted (fun a b => R (f a) (f b)) l -> StronglySorted R (map f l).
Proof.
  induction 1 as [|x l Hs IH Hall]; simpl.
  - constructor.
  - constructor; [exact IH|].
    rewrite Forall_forall in *. intros y Hy.
    apply in_map_iff in Hy. destruct Hy as [z [<- Hz]]. now apply Hall.
Qed.

(** ** Text normalizer *)

Section NormalizerFacts.

Context {U : TextOps}.

Lemma str_filter_In (p : ascii -> bool) (s : string) (c : ascii) :
  str_In c (str_filter p s) -> str_In c s /\ p c = true.
Proof.
  induction s as [|d s IH]; simpl; [easy|].
  destruct (p d) eqn:Hp; simpl.
  - intros [->|H]; [auto|]. destruct (IH H). auto.
  - intro H. destruct (IH H). auto.
Qed.

(** After [sub_nonword] every character is a word character or
    whitespace. *)
Lemma sub_nonword_chars (s : string) (c : ascii) :
  str_In c (sub_nonword s) -> is_word c || is_space c = true.
Proof.
  unfold sub_nonword. induction s as [|d s IH]; simpl; [easy|].
  intros [H|H]; [|now apply IH].
  subst c. destruct (is_word d || is_space d) eqn:Hd; [exact Hd|].
  rewrite space_is_space. apply orb_true_r.
Qed.

(** The tokens of [split] are made of non-whitespace characters of the
    text. *)
Lemma split_aux_chars (s : string) :
  (forall c, str_In c (fst (split_aux s)) -> str_In c s /\ is_space c = false) /\
  (forall t c, In t (snd (split_aux s)) -> str_In c t ->
               str_In c s /\ is_space c = false).
Proof.
  induction s as [|d s [IHw IHt]]; simpl.
  - split; [easy|]. intros t c [].
  - destruct (split_aux s) as [w ts] eqn:E. simpl in *.
    destruct (is_space d) eqn:Hd; simpl.
    + split; [easy|].
      intros t c Ht Hc. destruct w as [|a w]; simpl in Ht.
      * destruct (IHt t c Ht Hc). auto.
      * destruct Ht as [<-|Ht].
        -- destruct (IHw c Hc). auto.
        -- destruct (IHt t c Ht Hc). auto.
    + split.
      * intros c [<-|Hc]; [auto|]. destruct (IHw c Hc). auto.
      * intros t c Ht Hc. destruct (IHt t c Ht Hc). auto.
Qed.

Lemma py_split_chars (s t : string) (c : ascii) :
  In t (py_split s) -> str_In c t -> str_In c s /\ is_space c = false.
Proof.
  unfold py_split. pose proof (split_aux_chars s) as [Hw Ht].
  destruct (split_aux s) as [w ts]. simpl in *.
  intros Hin Hc. destruct w as [|a w]; simpl in Hin.
  - eauto.
  - destruct Hin as [<-|Hin]; eauto.
Qed.

Lemma normalize_query_tokens (q : string) (tokens : list string) (t : string) :
  normalize_query (PyStr q) = Return tokens ->
  In t tokens ->
  In t (py_split (sub_nonword (strip_accents (PyStr (py_strip (str_lower q)))))).
Proof.
  unfold normalize_query. intros H Hin. injection H as <-.
  destruct (1 <? _)%nat; [|exact Hin].
  apply filter_In in Hin. tauto.
Qed.

(** The query normalizer returns on every string. *)
Lemma normalize_query_total (q : string) :
  exists tokens, normalize_query (PyStr q) = Return tokens.
Proof. unfold normalize_query. eexists. reflexivity. Qed.

Lemma py_lstrip_chars (s : string) (c : ascii) :
  str_In c (py_lstrip s) -> str_In c s.
Proof.
  induction s as [|d s IH]; simpl; [easy|].
  destruct (is_space d); simpl; [auto|tauto].
Qed.

Lemma py_rstrip_chars (s : string) (c : ascii) :
  str_In c (py_rstrip s) -> str_In c s.
Proof.
  induction s as [|d s IH]; simpl; [easy|].
  destruct ((py_rstrip s =? "") && is_space d); simpl; [easy|].
  intros [H|H]; auto.
Qed.

Lemma py_strip_chars (s : string) (c : ascii) :
  str_In c (py_strip s) -> str_In c s.
Proof.
  unfold py_strip. intro H. now apply py_lstrip_chars, py_rstrip_chars.
Qed.

(** [sub_spaces] keeps the non-whitespace characters and writes spaces. *)
Lemma sub_spaces_chars (s : string) (c : ascii) :
  str_In c (sub_spaces s) ->
  c = " "%char \/ (str_In c s /\ is_space c = false).
Proof.
  induction s as [|d s IH]; simpl; [easy|].
  destruct (is_space d) eqn:Hd.
  - destruct s as [|e s'].
    + simpl. intros [H|[]]. auto.
    + destruct (is_space e) eqn:He.
      * intro H. destruct (IH H) as [H1|[H1 H2]]; auto.
      * intros [H|H]; [auto|]. destruct (IH H) as [H1|[H1 H2]]; auto.
  - intros [H|H].
    + subst c. auto.
    + destruct (IH H) as [H1|[H1 H2]]; auto.
Qed.

Lemma normalize_for_search_chars (text : pyval) (c : ascii) :
  str_In c (normalize_for_search text) ->
  is_word c = true \/ c = " "%char.
Proof.
  unfold normalize_for_search. destruct text as [|s]; [easy|].
  destruct (s =? ""); [easy|].
  intro H. apply py_strip_chars, sub_spaces_chars in H.
  destruct H as [H|[H Hsp]]; [auto|].
  apply sub_nonword_chars in H. rewrite Hsp, orb_false_r in H. auto.
Qed.

Lemma py_split_empty : py_split "" = [].
Proof. reflexivity. Qed.

Lemma normalize_query_empty : normalize_query (PyStr "") = Return [].
Proof.
  unfold normalize_query. rewrite str_lower_empty. reflexivity.
Qed.

End NormalizerFacts.

Example normalize_query_drops_short_words :
  normalize_query (U := ascii_text) (PyStr "  Arthrodese de  la Hanche, (droite) ")
  = Return ["arthrodese"; "hanche"; "droite"].
Proof. reflexivity. Qed.

Example normalize_query_keeps_sole_token :
  normalize_query (U := ascii_text) (PyStr "de") = Return ["de"].
Proof. reflexivity. Qed.

Example normalize_for_search_label :
  normalize_for_search (U := ascii_text) (PyStr " Acte  TEST, chirurgical ")
  = "acte test chirurgical".
Proof. reflexivity. Qed.

Example like_wildcards :
  like "%acte%chir%" "acte test chirurgical" = true
  /\ like "%chir%acte%" "acte test chirurgical" = false
  /\ like "%t_st%" "acte TEST" = true.
Proof. repeat split. Qed.

(** C8, as amended.  Every character of every token returned by
    [normalize_query] is a word character in the sense of [\w], that is a
    letter, a digit or the underscore, and is not whitespace: the
    substitution keeps [\w] and [\s] and the split removes [\s].
    Likewise every character of the string returned by
    [normalize_for_search] is a word character or the space. *)
Theorem C8_tokens_are_word_chars {U : TextOps} :
  (forall (q : pyval) (tokens : list string) (t : string) (c : ascii),
      normalize_query q = Return tokens ->
      In t tokens ->
      str_In c t ->
      is_word c = true /\ is_space c = false)
  /\ (forall (text : pyval) (c : ascii),
        str_In c (normalize_for_search text) ->
        is_word c = true \/ c = " "%char).
Proof.
  split; [|apply normalize_for_search_chars].
  intros q tokens t c Hq Ht Hc.
  destruct q as [|q]; [discriminate|].
  pose proof (normalize_query_tokens q tokens t Hq Ht) as Hs.
  destruct (py_split_chars _ _ _ Hs Hc) as [Hsub Hsp].
  apply sub_nonword_chars in Hsub.
  rewrite Hsp, orb_false_r in Hsub. auto.
Qed.

Lemma C8_tokens_are_word_chars_witness :
  is_word (U := ascii_text) "_"%char = true
  /\ is_space (TextOps := ascii_text) "_"%char = false.
Proof.
  apply (proj1 (C8_tokens_are_word_chars (U := ascii_text))
           (PyStr "Voie_abord du genou") ["voie_abord"; "genou"] "voie_abord" "_"%char).
  - reflexivity.
  - simpl. auto.
  - simpl. auto 10.
Defined.

(** C8, as stated, fails: the underscore is neither a letter, a digit nor
    whitespace, and it survives into a token (and into the normalized label
    of the catalog builder). *)
Lemma C8_underscore_survives :
  normalize_query (U := ascii_text) (PyStr "Voie_abord du genou")
    = Return ["voie_abord"; "genou"]
  /\ normalize_for_search (U := ascii_text) (PyStr "Voie_abord du genou")
     = "voie_abord du genou"
  /\ is_alnum (TextOps := ascii_text) "_"%char = false
  /\ is_space (TextOps := ascii_text) "_"%char = false
  /\ ~ (forall (q : string) (tokens : list string) (t : string) (c : ascii),
          normalize_query (U := ascii_text) (PyStr q) = Return tokens ->
          In t tokens -> str_In c t ->
          is_alnum (TextOps := ascii_text) c || is_space (TextOps := ascii_text) c = true).
Proof.
  repeat split; try reflexivity.
  intro H.
  specialize (H "Voie_abord du genou" ["voie_abord"; "genou"] "voie_abord" "_"%char
                eq_refl).
  simpl in H. discriminate H; auto 10.
Qed.

(** ** Search resolver *)

Section SearchFacts.

Context {U : TextOps} {F : Fts5}.



Lemma search_result_rows (d : Db) (q : pyval) (limit : Z) (active_only : bool)
  (tokens : list string) :
  normalize_query q = Return tokens ->
  tokens <> [] ->
  let rows := settled_rows d tokens limit active_only in
  let codes := map (fun r => CcamCode.code (fst r)) rows in
  search_result d q limit active_only
  = Return (map (fun r =>
                   {| Hit.row := fst r;
                      Hit.fts_rank := snd r;
                      Hit.assoc_count :=
                        (count_rows Association.code (associations d) codes
                           (CcamCode.code (fst r))
                         + count_rows Frequent.code (frequent_associations d) codes
                             (CcamCode.code (fst r)))%nat |})
                rows).
Proof.
  intros Hq Hne. unfold search_result, search, settled_rows. rewrite Hq.
  destruct tokens as [|t0 ts]; [congruence|]. cbn [is_nil].
  unfold bind, execute, ret.
  set (r1 := select_fts d _ active_only limit).
  set (r2 := select_fts d (join " OR " _) active_only limit).
  set (r3 := select_like d _ active_only limit).
  destruct (is_nil r1 && (1 <? List.length (t0 :: ts))%nat) eqn:E1.
  - destruct (is_nil r2) eqn:E2.
    + destruct r3 as [|x r3']; reflexivity.
    + destruct r2 as [|x r2']; [discriminate|]. reflexivity.
  - destruct (is_nil r1) eqn:E2.
    + destruct r3 as [|x r3']; reflexivity.
    + destruct r1 as [|x r1']; [discriminate|]. reflexivity.
Qed.

End SearchFacts.

(** C3, on the code.  A [None] query makes the query normalizer raise
    [AttributeError] ([query.lower()] comes before the guard of
    [strip_accents]), and [search] lets the exception through without
    executing a statement; the build-side normalizer returns the empty
    string on the same input. *)
Theorem C3_none_query_raises {U : TextOps} {F : Fts5}
  (d : Db) (limit : Z) (active_only : bool) :
  normalize_query PyNone = Raise AttributeError
  /\ search d PyNone limit active_only [] = (Raise AttributeError, [])
  /\ normalize_for_search PyNone = "".
Proof. repeat split. Qed.

(** The part of C3 that holds: on every string the normalizer returns, and
    on the empty string it returns no token, so that [search] returns the
    empty result without executing a statement. *)
Lemma search_empty_string {U : TextOps} {F : Fts5}
  (d : Db) (limit : Z) (active_only : bool) :
  normalize_query (PyStr "") = Return []
  /\ search d (PyStr "") limit active_only [] = (Return [], []).
Proof.
  split; [apply normalize_query_empty|].
  unfold search. rewrite normalize_query_empty. reflexivity.
Qed.

Lemma search_returns_on_strings {U : TextOps} {F : Fts5}
  (d : Db) (q : string) (limit : Z) (active_only : bool) :
  exists hits, search_result d (PyStr q) limit active_only = Return hits.
Proof.
  destruct (normalize_query_total q) as [tokens Hq].
  destruct tokens as [|t ts].
  - exists []. unfold search_result, search. rewrite Hq. reflexivity.
  - eexists. apply (search_result_rows d (PyStr q) limit active_only (t :: ts) Hq).
    discriminate.
Qed.

(** C4.  A query without tokens returns the empty result and executes no
    statement.  Otherwise the conjunctive tier is the first statement; the
    disjunctive tier is attempted exactly when the conjunctive tier returned
    nothing and there is more than one token; the substring tier is
    attempted exactly when every tier attempted before it returned
    nothing; and the tiers appear in that order. *)
Theorem C4_tiers_short_circuit {U : TextOps} {F : Fts5}
  (d : Db) (q : pyval) (limit : Z) (active_only : bool) (tokens : list string) :
  normalize_query q = Return tokens ->
  let r1 := select_fts d (join " " tokens) active_only limit in
  let r2 := select_fts d (join " OR " tokens) active_only limit in
  let tiers := tiers_attempted d q limit active_only in
  (tokens = [] -> search d q limit active_only [] = (Return [], []))
  /\ (tokens <> [] ->
      tiers = Conjunctive
                :: (if is_nil r1 && (1 <? List.length tokens)%nat then [Disjunctive] else [])
                ++ (if is_nil r1 && (negb (1 <? List.length tokens)%nat || is_nil r2)
                    then [Substring] else [])
      /\ (In Disjunctive tiers <-> r1 = [] /\ (1 < List.length tokens)%nat)
      /\ (In Substring tiers <->
          r1 = [] /\ ((1 < List.length tokens)%nat -> r2 = []))).
Proof.
  intros Hq r1 r2 tiers. split.
  - intros ->. unfold search. rewrite Hq. reflexivity.
  - intro Hne.
    assert (Heq : tiers = Conjunctive
                :: (if is_nil r1 && (1 <? List.length tokens)%nat then [Disjunctive] else [])
                ++ (if is_nil r1 && (negb (1 <? List.length tokens)%nat || is_nil r2)
                    then [Substring] else [])).
    { subst tiers. unfold tiers_attempted, search_log, search. rewrite Hq.
      destruct tokens as [|t0 ts]; [congruence|]. cbn [is_nil].
      unfold bind, execute, ret. fold r1. fold r2.
      set (r3 := select_like d _ active_only limit).
      destruct (1 <? List.length (t0 :: ts))%nat eqn:Em;
        destruct r1 as [|x1 r1'] eqn:E1; cbn [is_nil andb negb orb].
      - destruct r2 as [|x2 r2'] eqn:E2; cbn [is_nil].
        + destruct r3; reflexivity.
        + reflexivity.
      - reflexivity.
      - destruct r3; reflexivity.
      - reflexivity. }
    split; [exact Heq|].
    rewrite Heq. clear Heq.
    rewrite <- (is_nil_true r1), <- (is_nil_true r2), <- Nat.ltb_lt.
    destruct (is_nil r1), (1 <? List.length tokens)%nat, (is_nil r2); cbn;
      split; split; intros; intuition (try discriminate; try congruence).
Qed.

Lemma C4_tiers_short_circuit_witness :
  tiers_attempted (U := ascii_text) (F := plain_fts)
    sample_db (PyStr "acte inexistant") 10 true
  = [Conjunctive; Disjunctive].
Proof.
  exact (proj1 (proj2 (C4_tiers_short_circuit (U := ascii_text) (F := plain_fts)
                         sample_db (PyStr "acte inexistant") 10 true
                         ["acte"; "inexistant"] eq_refl)
                      ltac:(discriminate))).
Defined.

Example tiers_conjunctive_only :
  search_log (U := ascii_text) (F := plain_fts) sample_db (PyStr "acte test") 10 true
  = [ SelectFts Conjunctive "acte test" true 10;
      CountAssociations ["AAAA001"]; CountFrequent ["AAAA001"] ].
Proof. vm_compute. reflexivity. Qed.

Example tiers_substring_fallback :
  search_log (U := ascii_text) (F := plain_fts) sample_db (PyStr "chirurg") 10 true
  = [ SelectFts Conjunctive "chirurg" true 10;
      SelectLike "%chirurg%" true 10;
      CountAssociations ["AAAA001"]; CountFrequent ["AAAA001"] ].
Proof. vm_compute. reflexivity. Qed.

Example tiers_all_three :
  search (U := ascii_text) (F := plain_fts) sample_db (PyStr "zzz yyy") 10 true []
  = (Return [],
     [ SelectFts Conjunctive "zzz yyy" true 10;
       SelectFts Disjunctive "zzz OR yyy" true 10;
       SelectLike "%zzz%yyy%" true 10 ]).
Proof. vm_compute. reflexivity. Qed.

(** The scenario of the specification: the conjunctive tier returns
    [AAAA001] with one association. *)
Example search_scenario :
  match search_result (U := ascii_text) (F := plain_fts) sample_db (PyStr "acte test") 10 true with
  | Return [h] =>
      CcamCode.code (Hit.row h) = "AAAA001" /\ Hit.assoc_count h = 1%nat
  | _ => False
  end.
Proof. vm_compute. auto. Qed.


(** [DDDD004] is the only label with all of "acte test ancien" but it is
    expired: with [active_only] the conjunctive tier is empty and the
    disjunctive tier answers; without it [DDDD004] is returned. *)
Example search_expired_hidden :
  match search_result (U := ascii_text) (F := plain_fts) sample_db
          (PyStr "acte test ancien") 10 true with
  | Return hits => map (fun h => CcamCode.code (Hit.row h)) hits
                   = ["AAAA001"; "BBBB002"; "CCCC003"]
  | Raise _ => False
  end
  /\ match search_result (U := ascii_text) (F := plain_fts) sample_db
             (PyStr "acte test ancien") 10 false with
     | Return [h] => CcamCode.code (Hit.row h) = "DDDD004"
     | _ => False
     end.
Proof. vm_compute. auto. Qed.


(** ** Compatibility checker *)

Lemma enumerate_from_In {A : Type} (l : list A) (s i : nat) (x : A) :
  In (i, x) (enumerate_from s l) <->
  exists k, i = (s + k)%nat /\ nth_error l k = Some x.
Proof.
  revert s. induction l as [|y l IH]; intro s; simpl.
  - split; [easy|]. intros [[|k] [_ H]]; discriminate.
  - rewrite IH. split.
    + intros [H|[k [-> Hk]]].
      * injection H as <- <-. exists 0%nat. split; [lia|reflexivity].
      * exists (S k). split; [lia|exact Hk].
    + intros [[|k] [-> Hk]].
      * left. simpl in Hk. injection Hk as <-. f_equal. lia.
      * right. exists k. split; [lia|exact Hk].
Qed.

Lemma enumerate_In {A : Type} (l : list A) (i : nat) (x : A) :
  In (i, x) (enumerate l) <-> nth_error l i = Some x.
Proof.
  unfold enumerate. rewrite enumerate_from_In. split.
  - intros [k [-> Hk]]. exact Hk.
  - intro H. exists i. auto.
Qed.

Section CheckerFacts.

Context {U : TextOps}.

Lemma select_assoc_In (d : Db) (c1 c2 : string) (a : Association.row) :
  In a (select_assoc d c1 c2) <->
  In a (associations d) /\ Association.code a = c1 /\ Association.associated_code a = c2.
Proof.
  unfold select_assoc. rewrite filter_In, andb_true_iff, !String.eqb_eq. tauto.
Qed.

(** The guard [if assoc12 or assoc21] changes nothing: the loop runs over
    [assoc12] alone. *)
Lemma check_pair_eq (d : Db) (code1 code2 : string) :
  check_pair d code1 code2
  = map (fun a => has_association (code1, code2)
                    (Association.association_type a) (Association.activity a))
        (select_assoc d code1 code2).
Proof.
  unfold check_pair.
  destruct (select_assoc d code1 code2) as [|a l]; [|reflexivity].
  now destruct (negb (is_nil (select_assoc d code2 code1))).
Qed.

(** Where a [has_association] issue comes from. *)
Lemma has_association_origin (d : Db) (codes : list string)
  (c1 c2 : string) (ty : AssociationType) (act : string) :
  In (has_association (c1, c2) ty act) (check_compatibility d codes) <->
  exists i j row a,
    nth_error (map str_upper codes) i = Some c1
    /\ nth_error (map str_upper codes) j = Some c2
    /\ (i < j)%nat
    /\ select_code d c1 = Some row
    /\ In a (associations d)
    /\ Association.code a = c1
    /\ Association.associated_code a = c2
    /\ Association.association_type a = ty
    /\ Association.activity a = act.
Proof.
  unfold check_compatibility.
  set (ucodes := map str_upper codes).
  set (issues := flat_map _ (enumerate ucodes)).
  assert (Hin : In (has_association (c1, c2) ty act) (if is_nil issues then [ok] else issues)
                <-> In (has_association (c1, c2) ty act) issues).
  { destruct issues; simpl; [|tauto]. split; [intros [H|[]]; discriminate|easy]. }
  rewrite Hin. clear Hin. subst issues.
  rewrite in_flat_map. split.
  - intros [[i c] [Hi Hc]]. simpl in Hc.
    apply enumerate_In in Hi.
    unfold check_code in Hc.
    destruct (select_code d c) as [row|] eqn:Hrow.
    2:{ destruct Hc as [Hc|[]]. discriminate. }
    apply in_app_or in Hc. destruct Hc as [Hc|Hc].
    { destruct (truthy (CcamCode.date_end row)); [|destruct Hc].
      destruct Hc as [Hc|[]]. discriminate. }
    apply in_flat_map in Hc. destruct Hc as [[j c'] [Hj Hc]]. simpl in Hc.
    apply enumerate_In in Hj.
    destruct (j <=? i)%nat eqn:Hji; [destruct Hc|].
    apply Nat.leb_gt in Hji.
    rewrite check_pair_eq in Hc. apply in_map_iff in Hc.
    destruct Hc as [a [Ha Hsel]]. injection Ha as -> -> Ht Hact.
    apply select_assoc_In in Hsel. destruct Hsel as [Hsel [Hc1 Hc2]].
    exists i, j, row, a. tauto.
  - intros [i [j [row [a [Hi [Hj [Hlt [Hrow [Ha [Hc1 [Hc2 [Ht Hact]]]]]]]]]]]].
    exists (i, c1). split; [now apply enumerate_In|]. simpl.
    unfold check_code. rewrite Hrow. apply in_or_app. right.
    apply in_flat_map. exists (j, c2). split; [now apply enumerate_In|]. simpl.
    replace (j <=? i)%nat with false by (symmetry; apply Nat.leb_gt; exact Hlt).
    rewrite check_pair_eq. apply in_map_iff. exists a.
    split; [now rewrite Ht, Hact|]. apply select_assoc_In. tauto.
Qed.

Lemma unknown_code_reported (d : Db) (codes : list string) (c : string) :
  In c (map str_upper codes) ->
  select_code d c = None ->
  In (unknown_code c) (check_compatibility d codes).
Proof.
  intros Hin Hnone. unfold check_compatibility.
  set (ucodes := map str_upper codes) in *.
  assert (H : In (unknown_code c)
                 (flat_map (fun ic => check_code d ucodes (fst ic) (snd ic)) (enumerate ucodes))).
  { apply In_nth_error in Hin. destruct Hin as [i Hi].
    apply in_flat_map. exists (i, c). split; [now apply enumerate_In|].
    simpl. unfold check_code. rewrite Hnone. now left. }
  destruct (flat_map _ _); [destruct H|exact H].
Qed.

End CheckerFacts.



(** The scenario of the specification. *)
Example check_scenario :
  check_compatibility (U := ascii_text) sample_db ["AAAA001"; "BBBB002"]
  = [has_association ("AAAA001", "BBBB002") complementary_gesture "text"].
Proof. reflexivity. Qed.


(** C9.  An input code absent from the catalog gets its [unknown_code]
    issue, the loop body for it produces nothing else, and no
    [has_association] issue has an unknown code in first position,
    whatever the edges of the table. *)
Theorem C9_unknown_code_skips_pairs {U : TextOps}
  (d : Db) (codes : list string) (c : string) :
  In c (map str_upper codes) ->
  select_code d c = None ->
  In (unknown_code c) (check_compatibility d codes)
  /\ (forall i, check_code d (map str_upper codes) i c = [unknown_code c])
  /\ (forall c2 ty act,
        ~ In (has_association (c, c2) ty act) (check_compatibility d codes)).
Proof.
  intros Hin Hnone. split; [now apply unknown_code_reported|]. split.
  - intro i. unfold check_code. now rewrite Hnone.
  - intros c2 ty act H. apply has_association_origin in H.
    destruct H as [i [j [row [a [_ [_ [_ [Hrow _]]]]]]]]. congruence.
Qed.

Lemma C9_unknown_code_skips_pairs_witness :
  In (unknown_code "XXXX009")
     (check_compatibility (U := ascii_text) orphan_db ["xxxx009"; "AAAA001"]).
Proof.
  apply (proj1 (C9_unknown_code_skips_pairs (U := ascii_text) orphan_db
                  ["xxxx009"; "AAAA001"] "XXXX009" (or_introl eq_refl) eq_refl)).
Defined.

Example check_unknown_then_edge :
  check_compatibility (U := ascii_text) orphan_db ["XXXX009"; "AAAA001"; "BBBB002"]
  = [unknown_code "XXXX009"].
Proof. reflexivity. Qed.

(** ** Catalog builder *)

Lemma fold_insert_association_In (rs t : list Association.row) (e : Association.row) :
  In e (fold_left insert_association rs t) -> In e t \/ In e rs.
Proof.
  revert t. induction rs as [|r rs IH]; intros t H; simpl in *; [auto|].
  apply IH in H. destruct H as [H|H]; [|auto].
  unfold insert_association in H.
  destruct (existsb _ t); [auto|].
  apply in_app_or in H. destruct H as [H|[H|[]]]; auto.
Qed.

Section BuilderFacts.

Context {U : TextOps}.

Lemma column_edges_no_loop (row : list (option string)) (code : string) (col : nat)
  (ty : AssociationType) (act : string) (e : Association.row) :
  In e (column_edges row code col ty act) ->
  Association.code e <> Association.associated_code e.
Proof.
  unfold column_edges. destruct (safe_str (cell row col)) as [val|]; [|easy].
  intro H. apply in_flat_map in H. destruct H as [t [_ H]].
  destruct (t =? code) eqn:E; simpl in H; [destruct H|].
  destruct H as [<-|[]]. simpl. apply String.eqb_neq in E. congruence.
Qed.

Lemma row_edges_no_loop (row : list (option string)) (e : Association.row) :
  In e (row_edges row) -> Association.code e <> Association.associated_code e.
Proof.
  unfold row_edges.
  destruct (List.length row <? 52)%nat; [easy|].
  destruct (safe_str (cell row COL_code_sub)) as [code|]; [|easy].
  destruct (negb (CCAM_CODE_RE_match code)); [easy|].
  destruct (_ && _); [easy|].
  destruct (negb (truthy (safe_str (cell row COL_text)))); [easy|].
  intro H.
  repeat (apply in_app_or in H; destruct H as [H|H];
          [now apply column_edges_no_loop in H|]).
  now apply column_edges_no_loop in H.
Qed.

Lemma parse_no_loop (rows : list (list (option string))) (e : Association.row) :
  In e (parse_complementary_file rows) ->
  Association.code e <> Association.associated_code e.
Proof.
  unfold parse_complementary_file. intro H.
  apply fold_insert_association_In in H. destruct H as [[]|H].
  apply in_flat_map in H. destruct H as [row [_ H]].
  now apply row_edges_no_loop in H.
Qed.

End BuilderFacts.

(** C10.  No edge produced by the catalog builder, from a gesture column or
    from the anesthesia column, links a code to itself; hence on a database
    whose [associations] table the builder produced, no check, even of a
    list that repeats a code, yields a [has_association] issue pairing a
    code with itself. *)
Theorem C10_no_self_association {U : TextOps} (rows : list (list (option string))) :
  (forall e, In e (parse_complementary_file rows) ->
             Association.code e <> Association.associated_code e)
  /\ (forall catalog frequent codes c ty act,
        ~ In (has_association (c, c) ty act)
             (check_compatibility
                {| ccam_codes := catalog;
                   associations := parse_complementary_file rows;
                   frequent_associations := frequent |}
                codes)).
Proof.
  split; [intros e; apply parse_no_loop|].
  intros catalog frequent codes c ty act H.
  apply has_association_origin in H.
  destruct H as [i [j [row [a [_ [_ [_ [_ [Ha [Hc1 [Hc2 _]]]]]]]]]]].
  simpl in Ha. apply parse_no_loop in Ha. congruence.
Qed.

Example parse_sample_sheet :
  parse_complementary_file (U := ascii_text) sample_sheet
  = [ mk_edge "AAAA001" "BBBB002" complementary_gesture "text";
      mk_edge "AAAA001" "CCCC003" complementary_gesture "text";
      mk_edge "AAAA001" "BBBB002" complementary_gesture "act123";
      mk_edge "AAAA001" "CCCC003" complementary_anesthesia "anesthesia" ].
Proof. vm_compute. reflexivity. Qed.

Lemma C10_no_self_association_witness :
  Association.code (mk_edge "AAAA001" "BBBB002" complementary_gesture "act123")
  <> Association.associated_code (mk_edge "AAAA001" "BBBB002" complementary_gesture "act123").
Proof.
  apply (proj1 (C10_no_self_association (U := ascii_text) sample_sheet)).
  vm_compute. auto.
Defined.

(** A repeated code is compared with itself and nothing is reported. *)
Example check_repeated_code :
  check_compatibility (U := ascii_text)
    {| ccam_codes := sample_codes;
       associations := parse_complementary_file (U := ascii_text) sample_sheet;
       frequent_associations := [] |}
    ["AAAA001"; "AAAA001"]
  = [ok].
Proof. vm_compute. reflexivity. Qed.

(** ** Billing plan assembler *)


Lemma StronglySorted_impl {A : Type} (R R' : A -> A -> Prop) (l : list A) :
  (forall a b, R a b -> R' a b) -> StronglySorted R l -> StronglySorted R' l.
Proof.
  intros HR. induction 1 as [|x l Hs IH Hall]; constructor; [exact IH|].
  rewrite Forall_forall in *. auto.
Qed.

Lemma select_official_targets (d : Db) (code : string) :
  Permutation (map (fun r => Association.associated_code (fst r)) (select_official d code))
              (official_targets d code).
Proof.
  unfold select_official, official_targets.
  eapply Permutation_trans.
  - apply Permutation_map, sort_by_perm.
  - rewrite map_map. simpl. apply Permutation_refl.
Qed.




Example billing_scenario :
  match get_billing_plan (U := ascii_text) sample_db "aaaa001" with
  | Some plan =>
      map Item.code (Plan.complementary_gestures plan) = ["BBBB002"]
      /\ Plan.anesthesia_codes plan = []
      /\ Plan.frequent_associations plan = []
  | None => False
  end.
Proof. vm_compute. auto. Qed.

Example billing_not_found :
  get_billing_plan (U := ascii_text) sample_db "ZZZZ999" = None.
Proof. reflexivity. Qed.



(** ** Association classifier *)

Lemma valid_assocs_In (codes : list (string * Info.t)) (official_set : list string)
  (source_code : string) (source_info : Info.t) (assoc_list : list Candidate.t)
  (v : Valid.t) :
  In v (valid_assocs codes official_set source_code source_info assoc_list) <->
  exists assoc, In assoc assoc_list
                /\ classify codes official_set source_code source_info assoc = kept v.
Proof.
  unfold valid_assocs. rewrite in_flat_map. split.
  - intros [assoc [Hin H]]. exists assoc. split; [exact Hin|].
    destruct (classify _ _ _ _ assoc) as [| | |v0]; simpl in H;
      try contradiction.
    destruct H as [<-|[]]. reflexivity.
  - intros [assoc [Hin H]]. exists assoc. split; [exact Hin|]. rewrite H. now left.
Qed.

Lemma validate_In (d : Db) (scraped : list (string * list Candidate.t))
  (source : string) (valid : list Valid.t) :
  In (source, valid) (validate d scraped) <->
  exists assoc_list info,
    In (source, assoc_list) scraped
    /\ dict_get source (load_codes d) = Some info
    /\ valid_assocs (load_codes d) (official_targets d source) source info assoc_list <> []
    /\ valid = sort_by valid_le
                 (valid_assocs (load_codes d) (official_targets d source)
                    source info assoc_list).
Proof.
  unfold validate, load_ccam_data. rewrite in_flat_map. split.
  - intros [[s l] [Hin H]]. simpl in H.
    destruct (dict_get s (load_codes d)) as [info|] eqn:Hinfo; [|destruct H].
    destruct (valid_assocs _ _ s info l) as [|v0 vs] eqn:Hv; simpl in H; [destruct H|].
    destruct H as [H|[]]. injection H as <- <-.
    exists l, info. rewrite Hv. repeat split; auto. discriminate.
  - intros [l [info [Hin [Hinfo [Hne ->]]]]].
    exists (source, l). split; [exact Hin|]. simpl. rewrite Hinfo.
    destruct (valid_assocs _ _ source info l); [congruence|]. now left.
Qed.

(** What each outcome of [classify] says about the candidate: the rules in
    their order. *)
Lemma classify_spec (codes : list (string * Info.t)) (official_set : list string)
  (source_code : string) (source_info : Info.t) (assoc : Candidate.t) :
  let c := Candidate.code assoc in
  match classify codes official_set source_code source_info assoc with
  | removed_self_ref => c = source_code
  | removed_not_found => c <> source_code /\ dict_get c codes = None
  | removed_expired =>
      c <> source_code
      /\ exists info, dict_get c codes = Some info /\ Info.active info = false
  | kept v =>
      c <> source_code
      /\ (exists info, dict_get c codes = Some info /\ Info.active info = true)
      /\ Valid.code v = c
      /\ (Valid.confidence v = verified <-> In c official_set)
  end.
Proof.
  intro c. unfold classify. fold c.
  destruct (c =? source_code) eqn:Hself.
  - now apply String.eqb_eq.
  - apply String.eqb_neq in Hself.
    destruct (dict_get c codes) as [info|] eqn:Hget; [|auto].
    destruct (Info.active info) eqn:Hact; simpl.
    + split; [exact Hself|]. split; [eauto|]. split; [reflexivity|].
      destruct (existsb (String.eqb c) official_set) eqn:Hoff.
      * split; [|reflexivity]. intros _.
        apply existsb_exists in Hoff. destruct Hoff as [x [Hx Heq]].
        apply String.eqb_eq in Heq. now subst x.
      * assert (Hnot : ~ In c official_set).
        { intro Hin. apply not_true_iff_false in Hoff. apply Hoff.
          apply existsb_exists. exists c. split; [exact Hin|apply String.eqb_refl]. }
        destruct (_ && _); split; try discriminate; tauto.
    + split; [exact Hself|]. eauto.
Qed.


(** The candidates of [AAAA001]: [BBBB002] shares its chapter and is an
    official target, so it is [verified] and comes first. *)
Example validate_sample :
  map (fun e => (fst e, map (fun v => (Valid.code v, Valid.confidence v)) (snd e)))
      (validate sample_db sample_scraped)
  = [ ("AAAA001", [ ("BBBB002", verified); ("CCCC003", cross_chapter) ]) ].
Proof. vm_compute. reflexivity. Qed.


(** ** Integration into [frequent_associations] *)

Lemma frequent_key_eqb_eq (x y : Frequent.row) :
  frequent_key_eqb x y = true <-> frequent_key x = frequent_key y.
Proof.
  unfold frequent_key_eqb, frequent_key.
  rewrite andb_true_iff, !String.eqb_eq. split.
  - intros [-> ->]. reflexivity.
  - intro H. injection H as -> ->. auto.
Qed.

Lemma key_present_iff (t : list Frequent.row) (r : Frequent.row) :
  existsb (fun x => frequent_key_eqb x r) t = true <->
  In (frequent_key r) (map frequent_key t).
Proof.
  rewrite existsb_exists, in_map_iff. split.
  - intros [x [Hx Hk]]. apply frequent_key_eqb_eq in Hk. eauto.
  - intros [x [Hk Hx]]. exists x. split; [exact Hx|]. now apply frequent_key_eqb_eq.
Qed.

Lemma fold_insert_or_ignore (rs t : list Frequent.row) :
  fold_left insert_or_ignore rs t = t ++ kept_rows t rs.
Proof.
  revert t. induction rs as [|r rs IH]; intro t; simpl.
  - now rewrite app_nil_r.
  - rewrite IH. unfold insert_or_ignore.
    destruct (existsb (fun x => frequent_key_eqb x r) t); [reflexivity|].
    now rewrite <- app_assoc.
Qed.

Lemma integrate_source_eq (t : list Frequent.row) (s : string) (l : list Valid.t) :
  integrate_source t (s, l)
  = t ++ kept_rows t (map (frequent_row s) (enumerate_from 1 l)).
Proof.
  unfold integrate_source. simpl. rewrite <- fold_insert_or_ignore.
  generalize (enumerate_from 1 l) as e. intro e. revert t.
  induction e as [|ra e IH]; intro t; simpl; [reflexivity|apply IH].
Qed.

Lemma kept_rows_In (rs t : list Frequent.row) (r : Frequent.row) :
  In r (kept_rows t rs) -> In r rs.
Proof.
  revert t. induction rs as [|x rs IH]; intro t; simpl; [easy|].
  destruct (existsb _ t).
  - intro H. right. eapply IH, H.
  - intros [H|H]; [now left|]. right. eapply IH, H.
Qed.

(** Keys of [t] that no row of [rs] carries do not matter. *)
Lemma kept_rows_frame (rs t u : list Frequent.row) :
  (forall r, In r rs -> ~ In (frequent_key r) (map frequent_key t)) ->
  kept_rows (t ++ u) rs = kept_rows u rs.
Proof.
  revert u. induction rs as [|r rs IH]; intros u Hfresh; simpl; [reflexivity|].
  rewrite existsb_app.
  replace (existsb (fun x => frequent_key_eqb x r) t) with false.
  2:{ symmetry. apply not_true_iff_false. rewrite key_present_iff.
      apply Hfresh. now left. }
  simpl. destruct (existsb _ u).
  - apply IH. intros x Hx. apply Hfresh. now right.
  - f_equal. rewrite <- app_assoc. apply IH. intros x Hx. apply Hfresh. now right.
Qed.

(** With pairwise distinct keys nothing is dropped. *)
Lemma kept_rows_nodup (rs u : list Frequent.row) :
  NoDup (map frequent_key (u ++ rs)) -> kept_rows u rs = rs.
Proof.
  revert u. induction rs as [|r rs IH]; intros u Hnd; simpl; [reflexivity|].
  replace (existsb (fun x => frequent_key_eqb x r) u) with false.
  - f_equal. apply IH. now rewrite <- app_assoc.
  - symmetry. apply not_true_iff_false. rewrite key_present_iff.
    rewrite map_app in Hnd. simpl in Hnd.
    apply NoDup_remove_2 in Hnd. intro H. apply Hnd. apply in_or_app. now left.
Qed.

Lemma kept_rows_sorted (R : Frequent.row -> Frequent.row -> Prop)
  (rs u : list Frequent.row) :
  StronglySorted R rs -> StronglySorted R (kept_rows u rs).
Proof.
  intro Hs. revert u. induction Hs as [|r rs Hs IH Hall]; intro u; simpl.
  - constructor.
  - destruct (existsb _ u); [apply IH|].
    constructor; [apply IH|].
    rewrite Forall_forall in *. intros x Hx. apply Hall. eapply kept_rows_In, Hx.
Qed.

(** The primary key holds after every insertion. *)
Lemma kept_rows_keys (rs t : list Frequent.row) :
  NoDup (map frequent_key t) -> NoDup (map frequent_key (t ++ kept_rows t rs)).
Proof.
  revert t. induction rs as [|r rs IH]; intros t Hnd; simpl.
  - now rewrite app_nil_r.
  - destruct (existsb (fun x => frequent_key_eqb x r) t) eqn:E; [now apply IH|].
    change (r :: kept_rows (t ++ [r]) rs) with ([r] ++ kept_rows (t ++ [r]) rs).
    rewrite app_assoc. apply IH.
    rewrite map_app. simpl.
    apply Permutation_NoDup with (l := frequent_key r :: map frequent_key t).
    + apply Permutation_cons_append.
    + constructor; [|exact Hnd].
      apply not_true_iff_false in E. now rewrite key_present_iff in E.
Qed.

Lemma integrate_keys (validated : list (string * list Valid.t)) (t : list Frequent.row) :
  NoDup (map frequent_key t) ->
  NoDup (map frequent_key (fold_left integrate_source validated t)).
Proof.
  revert t. induction validated as [|[s l] rest IH]; intros t Hnd; simpl; [exact Hnd|].
  apply IH. rewrite integrate_source_eq. now apply kept_rows_keys.
Qed.

Lemma frequent_row_code (s : string) (ra : nat * Valid.t) :
  Frequent.code (frequent_row s ra) = s.
Proof. reflexivity. Qed.

Lemma filter_none {A : Type} (p : A -> bool) (l : list A) :
  (forall x, In x l -> p x = false) -> filter p l = [].
Proof.
  induction l as [|x l IH]; intro H; simpl; [reflexivity|].
  rewrite (H x) by now left. apply IH. intros y Hy. apply H. now right.
Qed.

Lemma filter_all {A : Type} (p : A -> bool) (l : list A) :
  (forall x, In x l -> p x = true) -> filter p l = l.
Proof.
  induction l as [|x l IH]; intro H; simpl; [reflexivity|].
  rewrite (H x) by now left. f_equal. apply IH. intros y Hy. apply H. now right.
Qed.

(** Integrating other source codes leaves the rows of [s] alone. *)
Lemma integrate_other_sources (rest : list (string * list Valid.t))
  (t : list Frequent.row) (s : string) :
  ~ In s (map fst rest) ->
  filter (fun r => Frequent.code r =? s) (fold_left integrate_source rest t)
  = filter (fun r => Frequent.code r =? s) t.
Proof.
  revert t. induction rest as [|[s' l'] rest IH]; intros t Hs; simpl; [reflexivity|].
  simpl in Hs. rewrite IH by tauto.
  rewrite integrate_source_eq, filter_app.
  rewrite (filter_none _ (kept_rows _ _)); [apply app_nil_r|].
  intros x Hx. apply kept_rows_In in Hx. apply in_map_iff in Hx.
  destruct Hx as [ra [<- _]]. simpl. apply String.eqb_neq. tauto.
Qed.

(** The rows of a source code after integration: those its own list adds
    to an empty table. *)
Lemma integrate_group (validated : list (string * list Valid.t))
  (t : list Frequent.row) (s : string) (l : list Valid.t) :
  NoDup (map fst validated) ->
  In (s, l) validated ->
  (forall x, In x t -> Frequent.code x <> s) ->
  filter (fun r => Frequent.code r =? s) (fold_left integrate_source validated t)
  = kept_rows [] (map (frequent_row s) (enumerate_from 1 l)).
Proof.
  revert t. induction validated as [|[s' l'] rest IH]; intros t Hnd Hin Ht; [destruct Hin|].
  simpl in Hnd. inversion Hnd as [|? ? Hnotin Hnd']; subst.
  simpl. destruct Hin as [Heq|Hin].
  - injection Heq as -> ->.
    rewrite integrate_other_sources by exact Hnotin.
    rewrite integrate_source_eq, filter_app.
    rewrite (filter_none _ t).
    2:{ intros x Hx. apply String.eqb_neq. now apply Ht. }
    simpl.
    rewrite <- (app_nil_r t) at 1. rewrite kept_rows_frame.
    + apply filter_all. intros x Hx. apply kept_rows_In in Hx.
      apply in_map_iff in Hx. destruct Hx as [ra [<- _]]. apply String.eqb_refl.
    + intros r Hr Hk. apply in_map_iff in Hr. destruct Hr as [ra [<- _]].
      apply in_map_iff in Hk. destruct Hk as [x [Hk Hx]].
      unfold frequent_key in Hk. simpl in Hk. injection Hk as Hc _.
      now apply (Ht x Hx).
  - apply IH; [exact Hnd'|exact Hin|].
    assert (Hne : s' <> s).
    { intros ->. apply Hnotin. apply in_map_iff. exists (s, l). auto. }
    intros x Hx. rewrite integrate_source_eq in Hx.
    apply in_app_or in Hx. destruct Hx as [Hx|Hx]; [now apply Ht|].
    apply kept_rows_In in Hx. apply in_map_iff in Hx.
    destruct Hx as [ra [<- _]]. exact Hne.
Qed.

Lemma validate_keys (d : Db) (scraped : list (string * list Candidate.t)) :
  NoDup (map fst scraped) -> NoDup (map fst (validate d scraped)).
Proof.
  unfold validate, load_ccam_data.
  induction scraped as [|[s l] rest IH]; intro Hnd; simpl; [constructor|].
  inversion Hnd as [|? ? Hnotin Hnd']; subst.
  rewrite map_app. specialize (IH Hnd').
  destruct (dict_get s (load_codes d)) as [info|]; [|exact IH].
  destruct (is_nil _); [exact IH|].
  simpl. constructor; [|exact IH].
  intro Hin. apply Hnotin.
  apply in_map_iff in Hin. destruct Hin as [[s0 v0] [Hs0 Hin]]. simpl in Hs0. subst s0.
  apply in_flat_map in Hin. destruct Hin as [[s1 l1] [Hin1 Hin]]. simpl in Hin.
  destruct (dict_get s1 (load_codes d)); [|destruct Hin].
  destruct (is_nil _); [destruct Hin|].
  destruct Hin as [Hin|[]]. injection Hin as -> _.
  apply in_map_iff. exists (s, l1). auto.
Qed.

Lemma enumerate_from_ranks (s : string) (l : list Valid.t) (start : nat) :
  map Frequent.rank (map (frequent_row s) (enumerate_from start l))
  = map Z.of_nat (seq start (List.length l)).
Proof.
  revert start. induction l as [|v l IH]; intro start; simpl; [reflexivity|].
  now rewrite IH.
Qed.

Lemma enumerate_from_keys (s : string) (l : list Valid.t) (start : nat) :
  map frequent_key (map (frequent_row s) (enumerate_from start l))
  = map (fun v => (s, Valid.code v)) l.
Proof.
  revert start. induction l as [|v l IH]; intro start; simpl; [reflexivity|].
  now rewrite IH.
Qed.

Lemma enumerate_from_rank_sorted (s : string) (l : list Valid.t) (start : nat) :
  StronglySorted
    (fun x y => (Z.of_nat start <= Frequent.rank x < Frequent.rank y)%Z
                /\ (Frequent.rank y < Z.of_nat (start + List.length l))%Z)
    (map (frequent_row s) (enumerate_from start l)).
Proof.
  revert start. induction l as [|v l IH]; intro start; simpl; [constructor|].
  constructor.
  - eapply StronglySorted_impl; [|apply IH].
    intros a b [H1 H2]. simpl. lia.
  - rewrite Forall_forall. intros x Hx.
    apply in_map_iff in Hx. destruct Hx as [[k w] [<- Hk]].
    apply enumerate_from_In in Hk. destruct Hk as [n [-> Hn]].
    simpl.
    assert (n < List.length l)%nat.
    { apply nth_error_Some. congruence. }
    lia.
Qed.

Lemma source_keys_nodup (s : string) (l : list Valid.t) :
  NoDup (map Valid.code l) -> NoDup (map (fun v => (s, Valid.code v)) l).
Proof.
  induction l as [|v l IH]; simpl; intro H; [constructor|].
  inversion H as [|? ? Hnotin Hnd]; subst.
  constructor; [|now apply IH].
  intro Hin. apply Hnotin. apply in_map_iff in Hin.
  destruct Hin as [w [Hw Hin]]. injection Hw as Hw. rewrite <- Hw. now apply in_map.
Qed.

(** C2, as amended.  After integration of the classifier's output the
    table has at most one row per ordered pair [(code, associated_code)].
    Within the group of a source code with [N] surviving candidates the
    ranks are strictly increasing in table order, hence distinct, and lie
    in [1..N]; they are exactly [1..N] when the surviving candidates of
    that source code have pairwise distinct associated codes. *)
Theorem C2_ranks_of_a_source (d : Db) (scraped : list (string * list Candidate.t)) :
  NoDup (map fst scraped) ->
  let tbl := integrate (validate d scraped) in
  NoDup (map frequent_key tbl)
  /\ (forall source valid,
        In (source, valid) (validate d scraped) ->
        let ranks := map Frequent.rank
                       (filter (fun r => Frequent.code r =? source) tbl) in
        StronglySorted Z.lt ranks
        /\ (forall rk, In rk ranks -> (1 <= rk <= Z.of_nat (List.length valid))%Z)
        /\ (NoDup (map Valid.code valid) ->
            ranks = map Z.of_nat (seq 1 (List.length valid)))).
Proof.
  intros Hnd tbl. split.
  { apply integrate_keys. constructor. }
  intros source valid Hin ranks.
  assert (Hgroup : filter (fun r => Frequent.code r =? source) tbl
                   = kept_rows [] (map (frequent_row source) (enumerate_from 1 valid))).
  { apply integrate_group; [now apply validate_keys|exact Hin|intros x []]. }
  subst ranks. rewrite Hgroup. clear Hgroup.
  pose proof (kept_rows_sorted _ _ [] (enumerate_from_rank_sorted source valid 1)) as Hs.
  split; [|split].
  - apply StronglySorted_map. eapply StronglySorted_impl; [|exact Hs].
    intros a b [H1 H2]. simpl in H1. lia.
  - intros rk Hrk. apply in_map_iff in Hrk. destruct Hrk as [r [<- Hr]].
    apply kept_rows_In in Hr. apply in_map_iff in Hr.
    destruct Hr as [[k v] [<- Hk]]. apply enumerate_from_In in Hk.
    destruct Hk as [n [-> Hn]]. simpl.
    assert (n < List.length valid)%nat by (apply nth_error_Some; congruence).
    lia.
  - intro Hcodes. rewrite kept_rows_nodup.
    + apply enumerate_from_ranks.
    + simpl. rewrite enumerate_from_keys. now apply source_keys_nodup.
Qed.

(** [BBBB002] is both official and observed; the two survivors get the
    ranks 1 and 2. *)
Example integrate_sample :
  map (fun r => (Frequent.code r, Frequent.associated_code r, Frequent.rank r))
      (integrate (validate sample_db sample_scraped))
  = [ ("AAAA001", "BBBB002", 1%Z); ("AAAA001", "CCCC003", 2%Z) ].
Proof. vm_compute. reflexivity. Qed.

Lemma C2_ranks_of_a_source_witness :
  NoDup (map frequent_key (integrate (validate sample_db sample_scraped))).
Proof.
  refine (proj1 (C2_ranks_of_a_source sample_db sample_scraped _)).
  vm_compute. repeat constructor; simpl; intuition discriminate.
Defined.

(** C2, as stated, fails on the ranks.  The associated code [BBBB002] is
    scraped twice for [AAAA001]: all three candidates survive
    classification, the second copy is ignored by the insertion together
    with its rank, and the persisted ranks are 1 and 3. *)
Lemma C2_repeated_code_leaves_gap :
  map (fun e => (fst e, map Valid.code (snd e))) (validate sample_db repeated_scraped)
  = [ ("AAAA001", ["BBBB002"; "BBBB002"; "CCCC003"]) ]
  /\ map (fun r => (Frequent.associated_code r, Frequent.rank r))
         (filter (fun r => Frequent.code r =? "AAAA001")
                 (integrate (validate sample_db repeated_scraped)))
     = [ ("BBBB002", 1%Z); ("CCCC003", 3%Z) ]
  /\ ~ (forall (d : Db) (scraped : list (string * list Candidate.t))
               (source : string) (valid : list Valid.t),
          NoDup (map fst scraped) ->
          In (source, valid) (validate d scraped) ->
          Permutation
            (map Frequent.rank
               (filter (fun r => Frequent.code r =? source)
                       (integrate (validate d scraped))))
            (map Z.of_nat (seq 1 (List.length valid)))).
Proof.
  split; [vm_compute; reflexivity|]. split; [vm_compute; reflexivity|].
  intro H.
  specialize (H sample_db repeated_scraped "AAAA001"
                (match validate sample_db repeated_scraped with
                 | e :: _ => snd e
                 | [] => []
                 end)).
  assert (Hlen : List.length
                   (map Frequent.rank
                      (filter (fun r => Frequent.code r =? "AAAA001")
                              (integrate (validate sample_db repeated_scraped))))
                 = 3%nat).
  { erewrite Permutation_length; [|apply H].
    - vm_compute. reflexivity.
    - vm_compute. repeat constructor. intros [].
    - vm_compute. left. reflexivity. }
  vm_compute in Hlen. discriminate.
Qed.

(** * Further properties of the code *)

(** ** Compatibility checker: the shape of the issue list *)

Section CheckerShape.

Context {U : TextOps}.

Lemma check_pair_kinds (d : Db) (c1 c2 : string) (x : Issue) :
  In x (check_pair d c1 c2) ->
  exists a, In a (select_assoc d c1 c2)
            /\ x = has_association (c1, c2) (Association.association_type a)
                     (Association.activity a).
Proof.
  rewrite check_pair_eq. intro H. apply in_map_iff in H.
  destruct H as [a [<- Ha]]. eauto.
Qed.

Lemma pair_issues_kinds (d : Db) (codes : list string) (i : nat) (c1 : string) (x : Issue) :
  In x (pair_issues d codes i c1) ->
  exists c2 ty act, x = has_association (c1, c2) ty act.
Proof.
  unfold pair_issues. intro H. apply in_flat_map in H. destruct H as [[j c2] [_ H]].
  simpl in H. destruct (j <=? i)%nat; [destruct H|].
  apply check_pair_kinds in H. destruct H as [a [_ ->]]. eauto.
Qed.

Lemma check_code_unknowns (d : Db) (codes : list string) (i : nat) (c : string) :
  filter is_unknown_code (check_code d codes i c)
  = if absent d c then [unknown_code c] else [].
Proof.
  unfold check_code, absent. destruct (select_code d c) as [row|]; [|reflexivity].
  rewrite filter_app. fold (pair_issues d codes i c).
  rewrite (filter_none _ (pair_issues d codes i c)).
  - now destruct (truthy (CcamCode.date_end row)).
  - intros x Hx. apply pair_issues_kinds in Hx. destruct Hx as [c2 [ty [act ->]]].
    reflexivity.
Qed.

Lemma flat_check_unknowns (d : Db) (codes l : list string) (start : nat) :
  filter is_unknown_code
    (flat_map (fun ic => check_code d codes (fst ic) (snd ic)) (enumerate_from start l))
  = map unknown_code (filter (absent d) l).
Proof.
  revert start. induction l as [|c l IH]; intro start; simpl; [reflexivity|].
  rewrite filter_app, check_code_unknowns, IH.
  now destruct (absent d c).
Qed.

Lemma ok_not_in_flat (d : Db) (codes l : list string) (start : nat) :
  ~ In ok (flat_map (fun ic => check_code d codes (fst ic) (snd ic))
             (enumerate_from start l)).
Proof.
  intro H. apply in_flat_map in H. destruct H as [[i c] [_ H]]. simpl in H.
  unfold check_code in H. destruct (select_code d c) as [row|].
  - apply in_app_or in H. destruct H as [H|H].
    + destruct (truthy (CcamCode.date_end row)); [|destruct H].
      destruct H as [H|[]]. discriminate.
    + apply pair_issues_kinds in H. destruct H as [c2 [ty [act H]]]. discriminate.
  - destruct H as [H|[]]. discriminate.
Qed.

End CheckerShape.

Lemma check_code_expired (d : Db) (codes : list string) (i : nat) (c : string) :
  filter is_expired_code (check_code d codes i c) = expired_issue d c.
Proof.
  unfold check_code, expired_issue. destruct (select_code d c) as [row|]; [|reflexivity].
  rewrite filter_app. fold (pair_issues d codes i c).
  rewrite (filter_none _ (pair_issues d codes i c)).
  - destruct (truthy (CcamCode.date_end row)); reflexivity.
  - intros x Hx. apply pair_issues_kinds in Hx. destruct Hx as [c2 [ty [act ->]]].
    reflexivity.
Qed.

Lemma flat_check_expired (d : Db) (codes l : list string) (start : nat) :
  filter is_expired_code
    (flat_map (fun ic => check_code d codes (fst ic) (snd ic)) (enumerate_from start l))
  = flat_map (expired_issue d) l.
Proof.
  revert start. induction l as [|c l IH]; intro start; simpl; [reflexivity|].
  now rewrite filter_app, check_code_expired, IH.
Qed.

(** X1.  The [unknown_code] issues of a check are, in order, the
    (upper-cased) input codes that are absent from the catalog, and the
    [expired_code] issues are, in order, the input codes of the catalog
    whose end date is set, each with that date; in both cases one issue per
    occurrence, so a repeated code is reported each time. *)
Theorem unknown_issues_follow_input {U : TextOps} (d : Db) (codes : list string) :
  filter is_unknown_code (check_compatibility d codes)
  = map unknown_code (filter (absent d) (map str_upper codes))
  /\ filter is_expired_code (check_compatibility d codes)
     = flat_map (expired_issue d) (map str_upper codes).
Proof.
  unfold check_compatibility.
  set (ucodes := map str_upper codes).
  pose proof (flat_check_unknowns d ucodes ucodes 0) as H.
  pose proof (flat_check_expired d ucodes ucodes 0) as H'.
  fold (enumerate ucodes) in H, H'.
  destruct (flat_map _ (enumerate ucodes)) as [|x l]; simpl in *; auto.
Qed.

Example unknown_reported_twice :
  check_compatibility (U := ascii_text) sample_db ["zzzz999"; "AAAA001"; "ZZZZ999"]
  = [unknown_code "ZZZZ999"; unknown_code "ZZZZ999"].
Proof. reflexivity. Qed.

Example expired_is_reported_with_edges :
  check_compatibility (U := ascii_text)
    {| ccam_codes := sample_codes;
       associations := [ mk_edge "DDDD004" "AAAA001" complementary_gesture "text" ];
       frequent_associations := [] |}
    ["dddd004"; "AAAA001"]
  = [ expired_code "DDDD004" (Some "2020-01-01");
      has_association ("DDDD004", "AAAA001") complementary_gesture "text" ].
Proof. reflexivity. Qed.

(** X2.  The issue list is never empty, [ok] never stands beside another
    issue, and the answer is [[ok]] exactly when every input code is in
    the catalog with an empty end date and no edge leads from an input
    code to a code later in the list. *)
Theorem ok_means_no_issue {U : TextOps} (d : Db) (codes : list string) :
  check_compatibility d codes <> []
  /\ (In ok (check_compatibility d codes) -> check_compatibility d codes = [ok])
  /\ (check_compatibility d codes = [ok] <->
      (forall c, In c (map str_upper codes) ->
                 exists row, select_code d c = Some row
                             /\ truthy (CcamCode.date_end row) = false)
      /\ (forall i j c1 c2,
            nth_error (map str_upper codes) i = Some c1 ->
            nth_error (map str_upper codes) j = Some c2 ->
            (i < j)%nat ->
            select_assoc d c1 c2 = [])).
Proof.
  unfold check_compatibility.
  set (ucodes := map str_upper codes).
  set (issues := flat_map (fun ic => check_code d ucodes (fst ic) (snd ic)) (enumerate ucodes)).
  assert (Hok : ~ In ok issues) by apply ok_not_in_flat.
  assert (Hnil : issues = [] <->
                 (forall c, In c ucodes ->
                            exists row, select_code d c = Some row
                                        /\ truthy (CcamCode.date_end row) = false)
                 /\ (forall i j c1 c2,
                       nth_error ucodes i = Some c1 -> nth_error ucodes j = Some c2 ->
                       (i < j)%nat -> select_assoc d c1 c2 = [])).
  { split.
    - intro Hempty.
      assert (Hall : forall i c, nth_error ucodes i = Some c -> check_code d ucodes i c = []).
      { intros i c Hi. destruct (check_code d ucodes i c) as [|x l] eqn:E; [reflexivity|].
        assert (Hin : In x issues).
        { apply in_flat_map. exists (i, c). split; [now apply enumerate_In|].
          simpl. rewrite E. now left. }
        rewrite Hempty in Hin. destruct Hin. }
      split.
      + intros c Hc. apply In_nth_error in Hc. destruct Hc as [i Hi].
        specialize (Hall i c Hi). unfold check_code in Hall.
        destruct (select_code d c) as [row|]; [|discriminate].
        exists row. split; [reflexivity|].
        destruct (truthy (CcamCode.date_end row)); [discriminate|reflexivity].
      + intros i j c1 c2 Hi Hj Hlt.
        specialize (Hall i c1 Hi). unfold check_code in Hall.
        destruct (select_code d c1) as [row|]; [|discriminate].
        apply app_eq_nil in Hall. destruct Hall as [_ Hall].
        destruct (select_assoc d c1 c2) as [|a l] eqn:E; [reflexivity|].
        assert (Hin : In (has_association (c1, c2) (Association.association_type a)
                            (Association.activity a))
                         (flat_map (fun jc => if (fst jc <=? i)%nat then []
                                              else check_pair d c1 (snd jc))
                                   (enumerate ucodes))).
        { apply in_flat_map. exists (j, c2). split; [now apply enumerate_In|].
          simpl. replace (j <=? i)%nat with false by (symmetry; now apply Nat.leb_gt).
          rewrite check_pair_eq, E. now left. }
        rewrite Hall in Hin. destruct Hin.
    - intros [Hknown Hpairs].
      destruct issues as [|x l] eqn:E; [reflexivity|].
      assert (Hin : In x issues) by (rewrite E; now left).
      apply in_flat_map in Hin. destruct Hin as [[i c] [Hi Hx]]. simpl in Hx.
      apply enumerate_In in Hi.
      destruct (Hknown c) as [row [Hrow Hdate]]; [eapply nth_error_In; eauto|].
      unfold check_code in Hx. rewrite Hrow, Hdate in Hx. simpl in Hx.
      apply in_flat_map in Hx. destruct Hx as [[j c2] [Hj Hx]]. simpl in Hx.
      apply enumerate_In in Hj.
      destruct (j <=? i)%nat eqn:Hji; [destruct Hx|]. apply Nat.leb_gt in Hji.
      rewrite check_pair_eq, (Hpairs i j c c2 Hi Hj Hji) in Hx. destruct Hx. }
  destruct issues as [|x l] eqn:E; simpl.
  - split; [discriminate|]. split; [reflexivity|].
    split; [intros _|reflexivity]. now apply Hnil.
  - split; [discriminate|]. split.
    + intro H. exfalso. apply Hok, H.
    + split.
      * intro H. injection H as -> _. exfalso. apply Hok. now left.
      * intro H. apply Hnil in H. discriminate.
Qed.

(** X3.  A [has_association] issue [(c1, c2)] is reported exactly when
    [c1] and [c2] stand at positions [i < j] of the upper-cased input,
    [c1] is in the catalog and the table holds an edge row from [c1] to
    [c2] with the reported type and activity. *)
Theorem has_association_iff_forward_edge {U : TextOps}
  (d : Db) (codes : list string) (c1 c2 : string) (ty : AssociationType) (act : string) :
  In (has_association (c1, c2) ty act) (check_compatibility d codes) <->
  exists i j a,
    nth_error (map str_upper codes) i = Some c1
    /\ nth_error (map str_upper codes) j = Some c2
    /\ (i < j)%nat
    /\ absent d c1 = false
    /\ In a (associations d)
    /\ Association.code a = c1
    /\ Association.associated_code a = c2
    /\ Association.association_type a = ty
    /\ Association.activity a = act.
Proof.
  rewrite has_association_origin. unfold absent. split.
  - intros [i [j [row [a [Hi [Hj [Hlt [Hrow H]]]]]]]].
    exists i, j, a. rewrite Hrow. tauto.
  - intros [i [j [a [Hi [Hj [Hlt [Habs H]]]]]]].
    destruct (select_code d c1) as [row|] eqn:Hrow; [|discriminate].
    exists i, j, row, a. tauto.
Qed.

(** ** Search resolver: what is returned *)


Section SearchShape.

Context {U : TextOps} {F : Fts5}.




End SearchShape.



Example search_limit_two :
  match search_result (U := ascii_text) (F := plain_fts) sample_db
          (PyStr "acte test ancien") 2 true with
  | Return hits => map (fun h => CcamCode.code (Hit.row h)) hits = ["AAAA001"; "BBBB002"]
  | Raise _ => False
  end.
Proof. vm_compute. reflexivity. Qed.

(** A negative limit is no limit (SQLite's reading of [LIMIT -1]). *)
Example search_negative_limit :
  match search_result (U := ascii_text) (F := plain_fts) sample_db
          (PyStr "acte test ancien") (-1) true with
  | Return hits => List.length hits = 3%nat
  | Raise _ => False
  end.
Proof. vm_compute. reflexivity. Qed.





(** ** Billing plan assembler: content and order of the groups *)

Lemma StronglySorted_impl_in {A : Type} (R R' : A -> A -> Prop) (l : list A) :
  (forall a b, In a l -> In b l -> R a b -> R' a b) ->
  StronglySorted R l -> StronglySorted R' l.
Proof.
  intros HR Hs. induction Hs as [|x l Hs IH Hall].
  - constructor.
  - constructor.
    + apply IH. intros a b Ha Hb. apply HR; now right.
    + rewrite Forall_forall in *. intros y Hy.
      apply HR; [now left|now right|now apply Hall].
Qed.

Lemma Qle_bool_total (x y : Q) : Qle_bool x y = true \/ Qle_bool y x = true.
Proof.
  rewrite !Qle_bool_iff. destruct (Qlt_le_dec x y) as [H|H]; [left|right]; auto.
  now apply Qlt_le_weak.
Qed.

Lemma Qle_bool_trans (x y z : Q) :
  Qle_bool x y = true -> Qle_bool y z = true -> Qle_bool x z = true.
Proof. rewrite !Qle_bool_iff. apply Qle_trans. Qed.

Lemma official_le_total (x y : Association.row * option CcamCode.row) :
  official_le x y = true \/ official_le y x = true.
Proof.
  unfold official_le.
  set (kx := type_key (Association.association_type (fst x))).
  set (ky := type_key (Association.association_type (fst y))).
  destruct (Nat.lt_trichotomy kx ky) as [H|[H|H]].
  - left. apply orb_true_iff. left. now apply Nat.ltb_lt.
  - rewrite H, !Nat.eqb_refl, !Nat.ltb_irrefl. simpl.
    destruct (Qle_bool_total (coalesce0 (joined CcamCode.icr_public (snd y)))
                             (coalesce0 (joined CcamCode.icr_public (snd x)))); auto.
  - right. apply orb_true_iff. left. now apply Nat.ltb_lt.
Qed.

Lemma official_le_trans (x y z : Association.row * option CcamCode.row) :
  official_le x y = true -> official_le y z = true -> official_le x z = true.
Proof.
  unfold official_le.
  set (kx := type_key (Association.association_type (fst x))).
  set (ky := type_key (Association.association_type (fst y))).
  set (kz := type_key (Association.association_type (fst z))).
  rewrite !orb_true_iff, !andb_true_iff, !Nat.ltb_lt, !Nat.eqb_eq.
  intros [H1|[H1 Q1]] [H2|[H2 Q2]].
  - left. lia.
  - left. lia.
  - left. lia.
  - right. split; [lia|]. eapply Qle_bool_trans; eauto.
Qed.

Lemma select_official_sorted (d : Db) (code : string) :
  StronglySorted (fun x y => official_le x y = true) (select_official d code).
Proof.
  unfold select_official. apply sort_by_sorted.
  - apply official_le_total.
  - apply official_le_trans.
Qed.

Lemma select_official_In (d : Db) (code : string)
  (r : Association.row * option CcamCode.row) :
  In r (select_official d code) <->
  In (fst r) (associations d)
  /\ Association.code (fst r) = code
  /\ snd r = select_code d (Association.associated_code (fst r)).
Proof.
  unfold select_official. rewrite sort_by_In, in_map_iff. split.
  - intros [a [<- Ha]]. apply filter_In in Ha. destruct Ha as [Ha Hc].
    apply String.eqb_eq in Hc. simpl. auto.
  - intros [Ha [Hc Hs]]. exists (fst r). split.
    + destruct r as [a o]. simpl in *. now subst o.
    + apply filter_In. split; [exact Ha|]. now apply String.eqb_eq.
Qed.

(** X7.  In an assembled plan the gestures are in descending public ICR,
    a missing ICR counting as 0, and so are the anesthesia codes. *)
Theorem plan_groups_by_descending_icr {U : TextOps}
  (d : Db) (code : string) (plan : Plan.t) :
  get_billing_plan d code = Some plan ->
  let desc := fun x y : Item.t =>
                (coalesce0 (Item.icr_public y) <= coalesce0 (Item.icr_public x))%Q in
  StronglySorted desc (Plan.complementary_gestures plan)
  /\ StronglySorted desc (Plan.anesthesia_codes plan).
Proof.
  intros H desc. unfold get_billing_plan in H.
  destruct (get_code d (str_upper code)) as [main|]; [|discriminate].
  injection H as H. subst plan.
  cbn [Plan.complementary_gestures Plan.anesthesia_codes].
  assert (Hgen : forall p : Association.row * option CcamCode.row -> bool,
            (forall a b, p a = true -> p b = true ->
                         type_key (Association.association_type (fst a))
                         = type_key (Association.association_type (fst b))) ->
            StronglySorted desc
              (map official_item (filter p (select_official d (str_upper code))))).
  { intros p Hp. apply StronglySorted_map.
    eapply StronglySorted_impl_in;
      [|apply StronglySorted_filter, select_official_sorted].
    intros a b Ha Hb Hle. apply filter_In in Ha, Hb.
    unfold desc, official_item. cbn [Item.icr_public].
    unfold official_le in Hle. rewrite (Hp a b) in Hle by tauto.
    rewrite Nat.ltb_irrefl, Nat.eqb_refl in Hle. simpl in Hle.
    now apply Qle_bool_iff. }
  split; apply Hgen; intros a b Ha Hb.
  - destruct (Association.association_type (fst a)),
             (Association.association_type (fst b)); simpl in *; congruence.
  - destruct (Association.association_type (fst a)),
             (Association.association_type (fst b)); simpl in *; congruence.
Qed.

Lemma plan_groups_by_descending_icr_witness :
  StronglySorted
    (fun x y : Item.t =>
       (coalesce0 (Item.icr_public y) <= coalesce0 (Item.icr_public x))%Q)
    (Plan.complementary_gestures billing_plan_AAAA001).
Proof.
  refine (proj1 (plan_groups_by_descending_icr (U := ascii_text)
                   billing_db "AAAA001" billing_plan_AAAA001 _)).
  vm_compute. reflexivity.
Defined.

(** X8.  The gestures of a plan are exactly the items of the
    [complementary_gesture] edge rows of the code and the anesthesia codes
    exactly those of its [complementary_anesthesia] rows; an item carries
    the catalog data of its target, and a target missing from the catalog
    is still listed, without label and not expired. *)
Theorem plan_groups_follow_edge_types {U : TextOps}
  (d : Db) (code : string) (plan : Plan.t) :
  get_billing_plan d code = Some plan ->
  (forall it,
      In it (Plan.complementary_gestures plan) <->
      exists a, In a (associations d)
                /\ Association.code a = str_upper code
                /\ Association.association_type a = complementary_gesture
                /\ it = official_item (a, select_code d (Association.associated_code a)))
  /\ (forall it,
        In it (Plan.anesthesia_codes plan) <->
        exists a, In a (associations d)
                  /\ Association.code a = str_upper code
                  /\ Association.association_type a = complementary_anesthesia
                  /\ it = official_item (a, select_code d (Association.associated_code a)))
  /\ (forall a, Item.label (official_item (a, None)) = None
                /\ Item.expired (official_item (a, None)) = false).
Proof.
  intro H. unfold get_billing_plan in H.
  destruct (get_code d (str_upper code)) as [main|]; [|discriminate].
  injection H as H. subst plan.
  cbn [Plan.complementary_gestures Plan.anesthesia_codes].
  split; [|split; [|now intro a]].
  - intro it. rewrite in_map_iff. split.
    + intros [[a o] [<- Hr]]. apply filter_In in Hr. destruct Hr as [Hr Hp].
      apply select_official_In in Hr. simpl in *. destruct Hr as [Ha [Hc ->]].
      exists a. repeat split; auto.
      destruct (Association.association_type a); [reflexivity|discriminate].
    + intros [a [Ha [Hc [Ht ->]]]].
      exists (a, select_code d (Association.associated_code a)). split; [reflexivity|].
      apply filter_In. split; [apply select_official_In; simpl; auto|].
      simpl. now rewrite Ht.
  - intro it. rewrite in_map_iff. split.
    + intros [[a o] [<- Hr]]. apply filter_In in Hr. destruct Hr as [Hr Hp].
      apply select_official_In in Hr. simpl in *. destruct Hr as [Ha [Hc ->]].
      exists a. repeat split; auto.
      destruct (Association.association_type a); [discriminate|reflexivity].
    + intros [a [Ha [Hc [Ht ->]]]].
      exists (a, select_code d (Association.associated_code a)). split; [reflexivity|].
      apply filter_In. split; [apply select_official_In; simpl; auto|].
      simpl. now rewrite Ht.
Qed.

Lemma plan_groups_follow_edge_types_witness :
  In (official_item (mk_edge "AAAA001" "CCCC003" complementary_anesthesia "anesthesia",
                     select_code billing_db "CCCC003"))
     (Plan.anesthesia_codes billing_plan_AAAA001).
Proof.
  refine (proj2 (proj1 (proj2 (plan_groups_follow_edge_types (U := ascii_text)
                                 billing_db "AAAA001" billing_plan_AAAA001 _)) _) _).
  - vm_compute. reflexivity.
  - exists (mk_edge "AAAA001" "CCCC003" complementary_anesthesia "anesthesia").
    vm_compute. auto 10.
Defined.

(** ** Association classifier: what survives and in which order *)

Lemma dict_get_In {V : Type} (k : string) (items : list (string * V)) (v : V) :
  dict_get k items = Some v -> In (k, v) items.
Proof.
  induction items as [|[k' v'] rest IH]; simpl; [discriminate|].
  destruct (dict_get k rest) as [w|].
  - intro H. injection H as ->. right. now apply IH.
  - destruct (k' =? k) eqn:E; [|discriminate].
    apply String.eqb_eq in E. intro H. injection H as ->. left. now subst.
Qed.

Lemma load_codes_row (d : Db) (c : string) (info : Info.t) :
  dict_get c (load_codes d) = Some info ->
  exists r, In r (ccam_codes d)
            /\ CcamCode.code r = c
            /\ Info.label info = CcamCode.label r
            /\ Info.icr_public info = CcamCode.icr_public r
            /\ Info.chapter info = CcamCode.chapter_num r
            /\ (Info.active info = true <-> CcamCode.date_end r = None).
Proof.
  intro H. apply dict_get_In in H. unfold load_codes in H.
  apply in_map_iff in H. destruct H as [r [Hr Hin]].
  injection Hr as <- <-. exists r. simpl. repeat split; auto.
  - destruct (CcamCode.date_end r); [discriminate|reflexivity].
  - intros ->. reflexivity.
Qed.



(** X9.  Every entry the classifier keeps for a source code points to a
    row of the catalog that has no end date, takes its ICR from that row,
    and is not the source code itself; the source code is itself in the
    catalog and its list is not empty. *)
Theorem kept_entries_are_active_codes
  (d : Db) (scraped : list (string * list Candidate.t))
  (source : string) (valid : list Valid.t) :
  In (source, valid) (validate d scraped) ->
  valid <> []
  /\ (exists r, In r (ccam_codes d) /\ CcamCode.code r = source)
  /\ (forall v, In v valid ->
        Valid.code v <> source
        /\ exists r, In r (ccam_codes d)
                     /\ CcamCode.code r = Valid.code v
                     /\ CcamCode.date_end r = None
                     /\ Valid.icr_public v = CcamCode.icr_public r).
Proof.
  intro H. apply validate_In in H. destruct H as [l [info [_ [Hinfo [Hne ->]]]]].
  split; [|split].
  - intro Hnil. apply Hne. now apply sort_by_nil_iff in Hnil.
  - apply load_codes_row in Hinfo. destruct Hinfo as [r [Hr [Hc _]]]. eauto.
  - intros v Hv. apply sort_by_In, valid_assocs_In in Hv.
    destruct Hv as [assoc [_ Hk]].
    pose proof (classify_spec (load_codes d) (official_targets d source) source info assoc)
      as Hs.
    cbv zeta in Hs. rewrite Hk in Hs. destruct Hs as [Hself [[i [Hi Hact]] [Hcode _]]].
    split; [congruence|].
    assert (Hicr : Valid.icr_public v = Info.icr_public i).
    { unfold classify in Hk.
      destruct (Candidate.code assoc =? source); [discriminate|].
      rewrite Hi, Hact in Hk. simpl in Hk. injection Hk as <-. reflexivity. }
    apply load_codes_row in Hi. destruct Hi as [r [Hr [Hc [_ [Hicr' [_ Hdate]]]]]].
    exists r. repeat split; auto; try congruence. now apply Hdate.
Qed.

Lemma kept_entries_are_active_codes_witness :
  (match validate sample_db sample_scraped with
   | e :: _ => snd e
   | [] => []
   end) <> [].
Proof.
  refine (proj1 (kept_entries_are_active_codes sample_db sample_scraped "AAAA001" _ _)).
  vm_compute. left. reflexivity.
Defined.

Lemma valid_le_total (x y : Valid.t) : valid_le x y = true \/ valid_le y x = true.
Proof.
  unfold valid_le.
  set (kx := confidence_order (Valid.confidence x)).
  set (ky := confidence_order (Valid.confidence y)).
  destruct (Nat.lt_trichotomy kx ky) as [H|[H|H]].
  - left. apply orb_true_iff. left. now apply Nat.ltb_lt.
  - rewrite H, !Nat.eqb_refl, !Nat.ltb_irrefl. simpl. apply Qle_bool_total.
  - right. apply orb_true_iff. left. now apply Nat.ltb_lt.
Qed.

Lemma valid_le_trans (x y z : Valid.t) :
  valid_le x y = true -> valid_le y z = true -> valid_le x z = true.
Proof.
  unfold valid_le.
  rewrite !orb_true_iff, !andb_true_iff, !Nat.ltb_lt, !Nat.eqb_eq.
  intros [H1|[H1 Q1]] [H2|[H2 Q2]].
  - left. lia.
  - left. lia.
  - left. lia.
  - right. split; [lia|]. eapply Qle_bool_trans; eauto.
Qed.

Lemma valid_le_tier_then_icr (x y : Valid.t) :
  valid_le x y = true -> tier_then_icr x y.
Proof.
  unfold valid_le, tier_then_icr.
  rewrite orb_true_iff, andb_true_iff, Nat.ltb_lt, Nat.eqb_eq, Qle_bool_iff.
  intros [H|[H Hq]]; [now left|right]. split; [exact H|].
  apply Qopp_le_compat in Hq. now rewrite !Qopp_involutive in Hq.
Qed.

(** X10.  The entries of a source code are ordered by tier, [verified]
    before [same_chapter] before [cross_chapter], and inside a tier by
    descending ICR, a missing ICR counting as 0. *)
Theorem kept_entries_by_tier_then_icr
  (d : Db) (scraped : list (string * list Candidate.t))
  (source : string) (valid : list Valid.t) :
  In (source, valid) (validate d scraped) ->
  StronglySorted tier_then_icr valid.
Proof.
  intro H. apply validate_In in H. destruct H as [l [info [_ [_ [_ ->]]]]].
  eapply StronglySorted_impl; [apply valid_le_tier_then_icr|].
  apply sort_by_sorted; [apply valid_le_total|apply valid_le_trans].
Qed.

Lemma kept_entries_by_tier_then_icr_witness :
  StronglySorted tier_then_icr
    (match validate sample_db sample_scraped with
     | e :: _ => snd e
     | [] => []
     end).
Proof.
  apply (kept_entries_by_tier_then_icr sample_db sample_scraped "AAAA001").
  vm_compute. left. reflexivity.
Defined.



(** ** Integration: which rows are stored *)

Lemma integrate_rows_origin (validated : list (string * list Valid.t))
  (t : list Frequent.row) (r : Frequent.row) :
  In r (fold_left integrate_source validated t) ->
  In r t
  \/ exists s l ra, In (s, l) validated
                    /\ In ra (enumerate_from 1 l)
                    /\ r = frequent_row s ra.
Proof.
  revert t. induction validated as [|[s l] rest IH]; intros t H; simpl in H; [auto|].
  apply IH in H. destruct H as [H|[s' [l' [ra [Hin [Hra ->]]]]]].
  - rewrite integrate_source_eq in H. apply in_app_or in H.
    destruct H as [H|H]; [auto|].
    apply kept_rows_In, in_map_iff in H. destruct H as [ra [<- Hra]].
    right. exists s, l, ra. simpl. auto.
  - right. exists s', l', ra. simpl. auto.
Qed.

Lemma kept_rows_key_present (rs t : list Frequent.row) (r : Frequent.row) :
  In r rs -> In (frequent_key r) (map frequent_key (t ++ kept_rows t rs)).
Proof.
  revert t. induction rs as [|x rs IH]; intros t Hin; [destruct Hin|].
  simpl. destruct (existsb (fun y => frequent_key_eqb y x) t) eqn:E.
  - destruct Hin as [->|Hin]; [|now apply IH].
    apply key_present_iff in E. rewrite map_app. apply in_or_app. now left.
  - change (x :: kept_rows (t ++ [x]) rs) with ([x] ++ kept_rows (t ++ [x]) rs).
    rewrite app_assoc. destruct Hin as [->|Hin]; [|now apply IH].
    rewrite map_app. apply in_or_app. left.
    rewrite map_app. apply in_or_app. right. now left.
Qed.

Lemma integrate_keys_grow (validated : list (string * list Valid.t))
  (t : list Frequent.row) (k : string * string) :
  In k (map frequent_key t) ->
  In k (map frequent_key (fold_left integrate_source validated t)).
Proof.
  revert t. induction validated as [|[s l] rest IH]; intros t H; simpl; [exact H|].
  apply IH. rewrite integrate_source_eq, map_app. apply in_or_app. now left.
Qed.

(** X12.  After integration a pair [(code, associated_code)] is in the
    table exactly when the classifier kept it: every validated pair is
    stored, whatever the repetitions, and nothing else is. *)
Theorem stored_pairs_are_validated_pairs
  (validated : list (string * list Valid.t)) (s c : string) :
  In (s, c) (map frequent_key (integrate validated)) <->
  exists l v, In (s, l) validated /\ In v l /\ Valid.code v = c.
Proof.
  unfold integrate. split.
  - intro H. apply in_map_iff in H. destruct H as [r [Hk Hr]].
    apply integrate_rows_origin in Hr. destruct Hr as [[]|[s' [l [[n v] [Hin [Hra ->]]]]]].
    unfold frequent_key in Hk. simpl in Hk. injection Hk as -> <-.
    exists l, v. repeat split; auto.
    apply enumerate_from_In in Hra. destruct Hra as [k [_ Hk]].
    eapply nth_error_In; eauto.
  - intros [l [v [Hin [Hv <-]]]].
    generalize (@nil Frequent.row) as t.
    induction validated as [|[s' l'] rest IH]; intro t; [destruct Hin|].
    simpl. destruct Hin as [Heq|Hin]; [|now apply IH].
    injection Heq as -> ->.
    apply integrate_keys_grow. rewrite integrate_source_eq.
    apply In_nth_error in Hv. destruct Hv as [k Hk].
    apply (kept_rows_key_present _ t (frequent_row s (1 + k, v))%nat).
    apply in_map. apply enumerate_from_In. exists k. auto.
Qed.

Lemma kept_rows_first_copy (s : string) (l : list Valid.t) (start : nat)
  (u : list Frequent.row) (k : nat) (v : Valid.t) :
  nth_error l k = Some v ->
  ~ In (s, Valid.code v) (map frequent_key u) ->
  (forall j w, (j < k)%nat -> nth_error l j = Some w -> Valid.code w <> Valid.code v) ->
  In (frequent_row s ((start + k)%nat, v))
     (kept_rows u (map (frequent_row s) (enumerate_from start l))).
Proof.
  revert start u k. induction l as [|w l IH]; intros start u k Hk Hu Hfirst.
  - destruct k; discriminate.
  - simpl. destruct k as [|k].
    + simpl in Hk. injection Hk as ->.
      replace (existsb (fun x => frequent_key_eqb x (frequent_row s (start, v))) u)
        with false.
      * left. f_equal. f_equal. lia.
      * symmetry. apply not_true_iff_false. rewrite key_present_iff. exact Hu.
    + simpl in Hk.
      assert (Hw : Valid.code w <> Valid.code v).
      { apply (Hfirst 0%nat w); [lia|reflexivity]. }
      assert (Hrest : forall j x, (j < k)%nat -> nth_error l j = Some x ->
                                  Valid.code x <> Valid.code v).
      { intros j x Hj Hx. apply (Hfirst (S j) x); [lia|exact Hx]. }
      replace (start + S k)%nat with (S start + k)%nat by lia.
      destruct (existsb _ u).
      * now apply IH.
      * right. apply IH; [exact Hk| |exact Hrest].
        rewrite map_app. intro Hin. apply in_app_or in Hin.
        destruct Hin as [Hin|[Hin|[]]]; [now apply Hu|].
        unfold frequent_key in Hin. simpl in Hin. injection Hin as Hin. now apply Hw.
Qed.

(** X13.  The first copy wins: when the list of a source code holds an
    entry at index [k] (from 0) and no earlier entry has the same code, the
    table holds that entry with rank [k + 1]; later copies of the code do
    not replace it. *)
Theorem first_copy_is_stored
  (validated : list (string * list Valid.t)) (s : string) (l : list Valid.t)
  (k : nat) (v : Valid.t) :
  NoDup (map fst validated) ->
  In (s, l) validated ->
  nth_error l k = Some v ->
  (forall j w, (j < k)%nat -> nth_error l j = Some w -> Valid.code w <> Valid.code v) ->
  In (frequent_row s (S k, v)) (integrate validated)
  /\ (forall r, In r (integrate validated) ->
                Frequent.code r = s ->
                Frequent.associated_code r = Valid.code v ->
                r = frequent_row s (S k, v)).
Proof.
  intros Hnd Hin Hk Hfirst.
  assert (Hrow : In (frequent_row s (S k, v)) (integrate validated)).
  { assert (H : In (frequent_row s (S k, v))
                   (filter (fun r => Frequent.code r =? s) (integrate validated))).
    { unfold integrate. rewrite (integrate_group validated [] s l Hnd Hin) by (intros x []).
      apply (kept_rows_first_copy s l 1 [] k v Hk); [intros []|exact Hfirst]. }
    apply filter_In in H. tauto. }
  split; [exact Hrow|].
  intros r Hr Hc Ha.
  pose proof (integrate_keys validated [] (NoDup_nil _)) as Hkeys.
  fold (integrate validated) in Hkeys.
  assert (Hk' : frequent_key r = frequent_key (frequent_row s (S k, v))).
  { unfold frequent_key. simpl. now rewrite Hc, Ha. }
  clear - Hkeys Hr Hrow Hk'.
  induction (integrate validated) as [|x t IH]; [destruct Hr|].
  simpl in Hkeys. inversion Hkeys as [|? ? Hnotin Hnd]; subst.
  destruct Hr as [->|Hr], Hrow as [Hx|Hrow].
  - exact Hx.
  - exfalso. apply Hnotin. rewrite Hk'. now apply in_map.
  - exfalso. apply Hnotin. rewrite Hx, <- Hk'. now apply in_map.
  - now apply IH.
Qed.

Lemma first_copy_is_stored_witness :
  In (frequent_row "AAAA001"
        (3%nat, {| Valid.code := "CCCC003";
                   Valid.label := "Anesthesie pour acte";
                   Valid.icr_public := None;
                   Valid.confidence := cross_chapter |}))
     (integrate (validate sample_db repeated_scraped)).
Proof.
  refine (proj1 (first_copy_is_stored (validate sample_db repeated_scraped) "AAAA001"
                   (match validate sample_db repeated_scraped with
                    | e :: _ => snd e
                    | [] => []
                    end) 2 _ _ _ _ _)).
  - vm_compute. repeat constructor. intros [].
  - vm_compute. left. reflexivity.
  - vm_compute. reflexivity.
  - intros j w Hj Hw.
    destruct j as [|[|j]]; [| |lia]; vm_compute in Hw; injection Hw as <-; discriminate.
Defined.

Lemma frequent_group_origin {U : TextOps} (d : Db) (code : string) (plan : Plan.t)
  (it : FreqItem.t) :
  get_billing_plan d code = Some plan ->
  In it (Plan.frequent_associations plan) ->
  exists fa,
    In fa (frequent_associations d)
    /\ Frequent.code fa = str_upper code
    /\ it = frequent_item (fa, select_code d (Frequent.associated_code fa))
    /\ ~ In (Frequent.associated_code fa) (official_targets d (str_upper code)).
Proof.
  intros Hplan Hit. unfold get_billing_plan in Hplan.
  destruct (get_code d (str_upper code)) as [main|]; [|discriminate].
  injection Hplan as Hplan. subst plan. cbn [Plan.frequent_associations] in Hit.
  apply in_map_iff in Hit. destruct Hit as [[fa o] [<- Hfa]].
  apply filter_In in Hfa. destruct Hfa as [Hfa Hnot]. simpl in Hnot.
  unfold select_frequent in Hfa. apply sort_by_In, in_map_iff in Hfa.
  destruct Hfa as [fa' [Heq Hfa]]. injection Heq as -> <-.
  apply filter_In in Hfa. destruct Hfa as [Hfa Hsrc]. apply String.eqb_eq in Hsrc.
  exists fa. repeat split; auto.
  intro Hoff. apply negb_true_iff, not_true_iff_false in Hnot. apply Hnot.
  apply existsb_exists. exists (Frequent.associated_code fa).
  split; [|apply String.eqb_refl].
  eapply Permutation_in; [apply Permutation_sym, select_official_targets|exact Hoff].
Qed.

(** X14.  The classifier and the assembler together: when the table of
    observed associations is the one integrated from the classifier's
    output over the same catalog and edges, no item of the frequent group
    of a plan has confidence [verified], because a verified entry is an
    official target and official targets are left out of that group. *)
Theorem verified_entries_never_in_frequent_group {U : TextOps}
  (d : Db) (scraped : list (string * list Candidate.t)) (code : string) (plan : Plan.t) :
  get_billing_plan
    {| ccam_codes := ccam_codes d;
       associations := associations d;
       frequent_associations := integrate (validate d scraped) |} code = Some plan ->
  forall it, In it (Plan.frequent_associations plan) ->
             FreqItem.confidence it <> verified.
Proof.
  intros Hplan it Hit Hver.
  destruct (frequent_group_origin _ code plan it Hplan Hit)
    as [fa [Hfa [Hsrc [-> Hnot]]]].
  cbn [frequent_item FreqItem.confidence fst] in Hver.
  cbn [frequent_associations] in Hfa.
  apply integrate_rows_origin in Hfa.
  destruct Hfa as [[]|[s [l [[n v] [Hin [Hra ->]]]]]].
  simpl in Hsrc, Hver, Hnot. subst s.
  apply enumerate_from_In in Hra. destruct Hra as [k [_ Hk]].
  apply nth_error_In in Hk.
  apply validate_In in Hin. destruct Hin as [cands [info [_ [_ [_ ->]]]]].
  apply sort_by_In, valid_assocs_In in Hk. destruct Hk as [assoc [_ Hkept]].
  pose proof (classify_spec (load_codes d) (official_targets d (str_upper code))
                (str_upper code) info assoc) as Hs.
  cbv zeta in Hs. rewrite Hkept in Hs. destruct Hs as [_ [_ [Hc Hiff]]].
  apply Hiff in Hver. rewrite <- Hc in Hver.
  apply Hnot. exact Hver.
Qed.

Example plan_after_integration :
  match get_billing_plan (U := ascii_text)
          {| ccam_codes := sample_codes;
             associations := associations sample_db;
             frequent_associations := integrate (validate sample_db sample_scraped) |}
          "AAAA001" with
  | Some plan =>
      map Item.code (Plan.complementary_gestures plan) = ["BBBB002"]
      /\ map (fun i => (FreqItem.code i, FreqItem.confidence i, FreqItem.rank i))
             (Plan.frequent_associations plan)
         = [("CCCC003", cross_chapter, 2%Z)]
  | None => False
  end.
Proof. vm_compute. auto. Qed.

Lemma verified_entries_never_in_frequent_group_witness :
  match Plan.frequent_associations integrated_plan with
  | it :: _ => FreqItem.confidence it <> verified
  | [] => False
  end.
Proof.
  cbv [integrated_plan Plan.frequent_associations].
  apply (verified_entries_never_in_frequent_group (U := ascii_text)
           sample_db sample_scraped "AAAA001" integrated_plan).
  - vm_compute. reflexivity.
  - left. reflexivity.
Defined.

(** ** Catalog builder: the edge table *)

Lemma association_key_eqb_eq (x y : Association.row) :
  association_key_eqb x y = true <-> association_key x = association_key y.
Proof.
  unfold association_key_eqb, association_key.
  rewrite !andb_true_iff, !String.eqb_eq. split.
  - intros [[-> ->] ->]. reflexivity.
  - intro H. injection H as -> -> ->. auto.
Qed.

Lemma insert_association_keys (t : list Association.row) (r : Association.row) :
  NoDup (map association_key t) -> NoDup (map association_key (insert_association t r)).
Proof.
  intro Hnd. unfold insert_association.
  destruct (existsb (fun x => association_key_eqb x r) t) eqn:E; [exact Hnd|].
  rewrite map_app. simpl.
  apply Permutation_NoDup with (l := association_key r :: map association_key t).
  - apply Permutation_cons_append.
  - constructor; [|exact Hnd].
    intro Hin. apply not_true_iff_false in E. apply E.
    apply in_map_iff in Hin. destruct Hin as [x [Hk Hx]].
    apply existsb_exists. exists x. split; [exact Hx|]. now apply association_key_eqb_eq.
Qed.

Lemma fold_insert_association_keys (rs t : list Association.row) :
  NoDup (map association_key t) ->
  NoDup (map association_key (fold_left insert_association rs t)).
Proof.
  revert t. induction rs as [|r rs IH]; intros t H; simpl; [exact H|].
  apply IH. now apply insert_association_keys.
Qed.

Lemma fold_insert_association_present (rs t : list Association.row) (r : Association.row) :
  In r rs \/ In (association_key r) (map association_key t) ->
  In (association_key r) (map association_key (fold_left insert_association rs t)).
Proof.
  revert t. induction rs as [|x rs IH]; intros t H; simpl.
  - destruct H as [[]|H]. exact H.
  - apply IH. destruct H as [[->|H]|H]; [right|now left|right].
    + unfold insert_association.
      destruct (existsb (fun y => association_key_eqb y r) t) eqn:E.
      * apply existsb_exists in E. destruct E as [y [Hy Hk]].
        apply association_key_eqb_eq in Hk. rewrite <- Hk. now apply in_map.
      * rewrite map_app. apply in_or_app. right. now left.
    + unfold insert_association. destruct (existsb _ t); [exact H|].
      rewrite map_app. apply in_or_app. now left.
Qed.

Section BuilderShape.

Context {U : TextOps}.

Lemma code_prefix_shape (s m rest : string) :
  code_prefix s = Some (m, rest) ->
  code_prefix m = Some (m, "") /\ String.length m = 7%nat.
Proof.
  unfold code_prefix.
  destruct s as [|a [|b [|c [|d [|e [|f [|g r]]]]]]]; try discriminate.
  destruct (is_upper_AZ a && is_upper_AZ b && is_upper_AZ c && is_upper_AZ d
            && is_decimal e && is_decimal f && is_decimal g) eqn:E; [|discriminate].
  intro H. injection H as <- <-. rewrite E. split; reflexivity.
Qed.

Lemma findall_from_shape (s : string) (skip : nat) (m : string) :
  In m (findall_from skip s) -> code_prefix m = Some (m, "").
Proof.
  revert skip. induction s as [|c s IH]; intros skip H; [destruct H|].
  cbn [findall_from] in H. destruct skip as [|k]; [|eapply IH; eauto].
  destruct (code_prefix (String c s)) as [[m' rest]|] eqn:E; [|eapply IH; eauto].
  destruct H as [<-|H]; [|eapply IH; eauto].
  eapply code_prefix_shape; eauto.
Qed.

Lemma column_edges_shape (row : list (option string)) (code : string) (col : nat)
  (ty : AssociationType) (act : string) (e : Association.row) :
  In e (column_edges row code col ty act) ->
  Association.code e = code
  /\ code_prefix (Association.associated_code e) = Some (Association.associated_code e, "")
  /\ Association.association_type e = ty
  /\ Association.activity e = act.
Proof.
  unfold column_edges. destruct (safe_str (cell row col)) as [val|]; [|easy].
  intro H. apply in_flat_map in H. destruct H as [m [Hm H]].
  destruct (negb (m =? code)); [|destruct H].
  destruct H as [<-|[]]. simpl. repeat split.
  eapply findall_from_shape. exact Hm.
Qed.

Lemma row_edges_shape (row : list (option string)) (e : Association.row) :
  In e (row_edges row) ->
  CCAM_CODE_RE_match (Association.code e) = true
  /\ code_prefix (Association.associated_code e) = Some (Association.associated_code e, "")
  /\ In (Association.association_type e, Association.activity e) builder_kinds.
Proof.
  unfold row_edges.
  destruct (List.length row <? 52)%nat; [easy|].
  destruct (safe_str (cell row COL_code_sub)) as [code|]; [|easy].
  destruct (CCAM_CODE_RE_match code) eqn:Hre; cbn [negb]; [|easy].
  match goal with
  | |- In _ (if ?c then _ else _) -> _ => destruct c; [easy|]
  end.
  destruct (negb (truthy (safe_str (cell row COL_text)))); [easy|].
  intro H. unfold builder_kinds.
  repeat (apply in_app_or in H; destruct H as [H|H];
          [apply column_edges_shape in H; destruct H as [-> [Hp [-> ->]]];
           split; [exact Hre|split; [exact Hp|simpl; auto 10]]|]).
  apply column_edges_shape in H. destruct H as [-> [Hp [-> ->]]].
  split; [exact Hre|split; [exact Hp|simpl; auto 10]].
Qed.

End BuilderShape.

(** X15.  The edge table the builder produces respects its primary key:
    no two rows agree on code, associated code and activity; and an edge a
    code line declares is in the table. *)
Theorem built_edges_respect_primary_key {U : TextOps}
  (rows : list (list (option string))) :
  NoDup (map association_key (parse_complementary_file rows))
  /\ (forall row e, In row (tl rows) -> In e (row_edges row) ->
                    In (association_key e)
                       (map association_key (parse_complementary_file rows))).
Proof.
  unfold parse_complementary_file. split.
  - apply fold_insert_association_keys. constructor.
  - intros row e Hrow He. apply fold_insert_association_present. left.
    apply in_flat_map. eauto.
Qed.

(** X16.  Every edge of the built table starts at a code that matches the
    CCAM pattern, ends at a code of four capital letters and three digits,
    and carries one of the five pairs of type and activity: a gesture
    column gives [complementary_gesture] with the name of its column, the
    anesthesia column gives [complementary_anesthesia] with
    [anesthesia]. *)
Theorem built_edges_are_well_formed {U : TextOps}
  (rows : list (list (option string))) (e : Association.row) :
  In e (parse_complementary_file rows) ->
  CCAM_CODE_RE_match (Association.code e) = true
  /\ code_prefix (Association.associated_code e) = Some (Association.associated_code e, "")
  /\ String.length (Association.associated_code e) = 7%nat
  /\ In (Association.association_type e, Association.activity e) builder_kinds.
Proof.
  unfold parse_complementary_file. intro H.
  apply fold_insert_association_In in H. destruct H as [[]|H].
  apply in_flat_map in H. destruct H as [row [_ H]].
  apply row_edges_shape in H. destruct H as [H1 [H2 H3]].
  repeat split; auto. now apply code_prefix_shape in H2.
Qed.

Lemma built_edges_are_well_formed_witness :
  CCAM_CODE_RE_match (U := ascii_text) "AAAA001" = true
  /\ code_prefix (U := ascii_text) "CCCC003" = Some ("CCCC003", "")
  /\ String.length "CCCC003" = 7%nat
  /\ In (complementary_anesthesia, "anesthesia") builder_kinds.
Proof.
  apply (built_edges_are_well_formed (U := ascii_text) sample_sheet
           (mk_edge "AAAA001" "CCCC003" complementary_anesthesia "anesthesia")).
  vm_compute. auto 10.
Defined.

(** ** Text normalizer: trimming, splitting and joining *)

Section NormalizerShape.

Context {U : TextOps}.

Lemma py_rstrip_idem (s : string) : py_rstrip (py_rstrip s) = py_rstrip s.
Proof.
  induction s as [|c s IH]; simpl; [reflexivity|].
  destruct ((py_rstrip s =? "") && is_space c) eqn:E; [reflexivity|].
  simpl. now rewrite IH, E.
Qed.

Lemma py_lstrip_head (s : string) :
  match py_lstrip s with
  | EmptyString => True
  | String c _ => is_space c = false
  end.
Proof.
  induction s as [|c s IH]; simpl; [exact I|].
  destruct (is_space c) eqn:E; [exact IH|exact E].
Qed.

Lemma py_lstrip_fixed (s : string) :
  match s with
  | EmptyString => True
  | String c _ => is_space c = false
  end ->
  py_lstrip s = s.
Proof. destruct s as [|c s]; simpl; [reflexivity|]. now intros ->. Qed.

Lemma py_rstrip_head (s : string) :
  match s with
  | EmptyString => True
  | String c _ => is_space c = false
  end ->
  match py_rstrip s with
  | EmptyString => True
  | String c _ => is_space c = false
  end.
Proof.
  destruct s as [|c s]; simpl; [auto|].
  intro H. rewrite H, andb_false_r. exact H.
Qed.

Lemma py_strip_idem (s : string) : py_strip (py_strip s) = py_strip s.
Proof.
  unfold py_strip.
  rewrite (py_lstrip_fixed (py_rstrip (py_lstrip s))).
  - apply py_rstrip_idem.
  - apply py_rstrip_head, py_lstrip_head.
Qed.

Lemma split_aux_nonempty (s : string) (t : string) :
  In t (snd (split_aux s)) -> t <> "".
Proof.
  revert t. induction s as [|c s IH]; simpl; intros t H; [destruct H|].
  destruct (split_aux s) as [w ts]. simpl in *.
  destruct (is_space c); simpl in H; [|now apply IH].
  destruct w as [|a w]; simpl in H; [now apply IH|].
  destruct H as [<-|H]; [discriminate|now apply IH].
Qed.

Lemma py_split_nonempty (s t : string) : In t (py_split s) -> t <> "".
Proof.
  unfold py_split. pose proof (split_aux_nonempty s) as H.
  destruct (split_aux s) as [w ts]. simpl in *.
  destruct w as [|a w]; simpl; [apply H|].
  intros [<-|Hin]; [discriminate|now apply H].
Qed.

End NormalizerShape.

(** X17.  [safe_str] never returns an empty string, and applying it to
    its own result changes nothing: what it returns is already trimmed. *)
Theorem safe_str_result_is_trimmed {U : TextOps} (val : option string) :
  safe_str val <> Some ""
  /\ safe_str (safe_str val) = safe_str val.
Proof.
  unfold safe_str. destruct val as [s|]; [|split; [discriminate|reflexivity]].
  destruct (py_strip s =? "") eqn:E.
  - split; [discriminate|reflexivity].
  - split.
    + intro H. injection H as H. rewrite H in E. discriminate.
    + now rewrite py_strip_idem, E.
Qed.

(** X18.  No token of [normalize_query] is empty, and when a query yields
    two tokens or more each of them has more than two characters: short
    words survive only as the sole word of the text. *)
Theorem query_tokens_are_words {U : TextOps} (q : pyval) (tokens : list string) :
  normalize_query q = Return tokens ->
  (forall t, In t tokens -> t <> "")
  /\ ((2 <= List.length tokens)%nat ->
      forall t, In t tokens -> (3 <= String.length t)%nat).
Proof.
  destruct q as [|q]; [discriminate|].
  unfold normalize_query. intro H. injection H as <-.
  set (ts := py_split _).
  destruct (1 <? List.length ts)%nat eqn:E.
  - split.
    + intros t Ht. apply filter_In in Ht. destruct Ht as [Ht _].
      eapply py_split_nonempty, Ht.
    + intros _ t Ht. apply filter_In in Ht. destruct Ht as [_ Ht].
      apply Nat.ltb_lt in Ht. lia.
  - apply Nat.ltb_ge in E. split.
    + intros t Ht. eapply py_split_nonempty, Ht.
    + intro H. lia.
Qed.

Lemma query_tokens_are_words_witness :
  (forall t, In t ["arthrodese"; "hanche"] -> t <> "")
  /\ ((2 <= List.length ["arthrodese"; "hanche"])%nat ->
      forall t, In t ["arthrodese"; "hanche"] -> (3 <= String.length t)%nat).
Proof.
  apply (query_tokens_are_words (U := ascii_text) (PyStr "Arthrodese de la hanche")).
  reflexivity.
Defined.

(** A text of short words only has no token left, and nothing is
    searched. *)
Example short_words_only :
  normalize_query (U := ascii_text) (PyStr "de la") = Return []
  /\ search (U := ascii_text) (F := plain_fts) sample_db (PyStr "de la") 10 true []
     = (Return [], []).
Proof. split; reflexivity. Qed.

Section JoinSplit.

Context {U : TextOps}.

Lemma append_empty_r (s : string) : (s ++ "")%string = s.
Proof. induction s as [|c s IH]; simpl; [reflexivity|now rewrite IH]. Qed.

(** [join] one step at a time. *)
Lemma join_cons (sep w : string) (ts : list string) :
  join sep (w :: ts)
  = match ts with
    | [] => w
    | _ :: _ => (w ++ sep ++ join sep ts)%string
    end.
Proof. destruct ts; reflexivity. Qed.

Lemma split_aux_head (c : ascii) (s : string) :
  split_aux (String c s)
  = if is_space c
    then (EmptyString, push_token (fst (split_aux s)) (snd (split_aux s)))
    else (String c (fst (split_aux s)), snd (split_aux s)).
Proof. simpl. destruct (split_aux s) as [w ts]. reflexivity. Qed.

Lemma collapsed_of_nonempty (c : ascii) (w : string) (ts : list string) :
  collapsed_of (String c w, ts) <> "".
Proof. simpl. destruct ts; discriminate. Qed.

Lemma rstrip_sub_spaces (t : string) :
  py_rstrip (sub_spaces t) = collapsed_of (split_aux t).
Proof.
  induction t as [|c t IH]; [reflexivity|].
  rewrite split_aux_head. cbn [sub_spaces].
  destruct (is_space c) eqn:Hc.
  - destruct t as [|d t'].
    + simpl. now rewrite space_is_space.
    + rewrite split_aux_head in *. destruct (is_space d) eqn:Hd.
      * rewrite IH. cbn [fst snd push_token]. reflexivity.
      * cbn [py_rstrip]. rewrite IH, space_is_space, andb_true_r.
        cbn [fst snd push_token].
        destruct (collapsed_of (String d (fst (split_aux t')), snd (split_aux t')) =? "")
          eqn:E.
        -- apply String.eqb_eq in E. now apply collapsed_of_nonempty in E.
        -- reflexivity.
  - cbn [py_rstrip]. rewrite Hc, andb_false_r, IH.
    destruct (split_aux t) as [w ts]. cbn [fst snd].
    destruct w as [|a w]; destruct ts as [|x ts]; reflexivity.
Qed.

Lemma lstrip_sub_spaces (t : string) :
  py_lstrip (sub_spaces t) = sub_spaces (py_lstrip t).
Proof.
  induction t as [|c t IH]; [reflexivity|].
  cbn [sub_spaces py_lstrip]. destruct (is_space c) eqn:Hc.
  - destruct t as [|d t'].
    + simpl. now rewrite space_is_space.
    + destruct (is_space d) eqn:Hd; [exact IH|].
      cbn [py_lstrip]. rewrite space_is_space. rewrite IH.
      cbn [py_lstrip]. now rewrite Hd.
  - cbn [py_lstrip sub_spaces]. now rewrite Hc.
Qed.

Lemma py_split_lstrip (t : string) : py_split (py_lstrip t) = py_split t.
Proof.
  induction t as [|c t IH]; [reflexivity|].
  cbn [py_lstrip]. destruct (is_space c) eqn:Hc; [|reflexivity].
  rewrite IH. unfold py_split. rewrite (split_aux_head c t), Hc.
  destruct (split_aux t) as [w ts]. reflexivity.
Qed.

Lemma collapsed_of_join (t : string) :
  match t with
  | EmptyString => True
  | String c _ => is_space c = false
  end ->
  collapsed_of (split_aux t) = join " " (py_split t).
Proof.
  destruct t as [|c t]; [reflexivity|].
  intro Hc. unfold py_split. rewrite split_aux_head, Hc.
  destruct (split_aux t) as [w ts]. reflexivity.
Qed.

(** Collapsing the whitespace and trimming is splitting and joining with
    single spaces. *)
Lemma strip_sub_spaces (t : string) :
  py_strip (sub_spaces t) = join " " (py_split t).
Proof.
  unfold py_strip. rewrite lstrip_sub_spaces, rstrip_sub_spaces.
  rewrite collapsed_of_join by apply py_lstrip_head.
  now rewrite py_split_lstrip.
Qed.

Lemma split_aux_token (t s : string) :
  (forall c, str_In c t -> is_space c = false) ->
  split_aux (t ++ s) = ((t ++ fst (split_aux s))%string, snd (split_aux s)).
Proof.
  intro Ht. induction t as [|c t IH]; simpl.
  - now destruct (split_aux s).
  - rewrite IH by (intros x Hx; apply Ht; now right).
    rewrite (Ht c) by now left. reflexivity.
Qed.

Lemma split_aux_join (ts : list string) :
  (forall t, In t ts -> is_token t) ->
  split_aux (join " " ts) = (hd "" ts, tl ts).
Proof.
  induction ts as [|t ts IH]; intro Hts; [reflexivity|].
  rewrite join_cons. destruct ts as [|t2 ts'].
  - rewrite <- (append_empty_r t) at 1.
    rewrite split_aux_token by (apply Hts; now left).
    simpl. now rewrite append_empty_r.
  - rewrite split_aux_token by (apply Hts; now left).
    change (" " ++ join " " (t2 :: ts'))%string with (String " " (join " " (t2 :: ts'))).
    rewrite split_aux_head, space_is_space.
    rewrite IH by (intros x Hx; apply Hts; now right).
    cbn [fst snd hd tl]. rewrite append_empty_r.
    destruct t2 as [|a t2]; [|reflexivity].
    exfalso. destruct (Hts "") as [H _]; [right; now left|]. now apply H.
Qed.

Lemma py_split_join (ts : list string) :
  (forall t, In t ts -> is_token t) -> py_split (join " " ts) = ts.
Proof.
  intro Hts. unfold py_split. rewrite split_aux_join by exact Hts.
  destruct ts as [|t ts]; [reflexivity|].
  simpl. destruct t as [|a t]; [|reflexivity].
  exfalso. destruct (Hts "") as [H _]; [now left|]. now apply H.
Qed.

Lemma py_split_tokens (s t : string) : In t (py_split s) -> is_token t.
Proof.
  intro H. split; [eapply py_split_nonempty; eauto|].
  intros c Hc. eapply py_split_chars; eauto.
Qed.

End JoinSplit.

Lemma normalize_for_search_words {U : TextOps} (s : string) :
  normalize_for_search (PyStr s) = join " " (label_words s)
  /\ py_split (normalize_for_search (PyStr s)) = label_words s.
Proof.
  assert (H : normalize_for_search (PyStr s) = join " " (label_words s)).
  { unfold normalize_for_search, label_words.
    destruct (s =? "") eqn:E; [|apply strip_sub_spaces].
    apply String.eqb_eq in E. subst s. rewrite str_lower_empty. reflexivity. }
  split; [exact H|].
  rewrite H. apply py_split_join. intros t Ht. eapply py_split_tokens, Ht.
Qed.

(** X19.  The normalized label is its words joined by single spaces, and
    splitting it gives the words back: it has no leading, trailing or
    doubled whitespace, and its words are those of the lower-cased,
    accent-stripped text with every other character turned into a
    separator. *)
Theorem normalized_label_is_joined_words {U : TextOps} (s : string) :
  normalize_for_search (PyStr s) = join " " (label_words s)
  /\ py_split (normalize_for_search (PyStr s)) = label_words s
  /\ join " " (py_split (normalize_for_search (PyStr s))) = normalize_for_search (PyStr s).
Proof.
  destruct (normalize_for_search_words s) as [H H'].
  split; [exact H|]. split; [exact H'|]. now rewrite H', <- H.
Qed.

Example normalized_label_words :
  label_words (U := ascii_text) "  Ablation (partielle)  du   rein-gauche " 
  = ["ablation"; "partielle"; "du"; "rein"; "gauche"]
  /\ normalize_for_search (U := ascii_text)
       (PyStr "  Ablation (partielle)  du   rein-gauche ")
     = "ablation partielle du rein gauche".
Proof. split; reflexivity. Qed.

Section QueryAndLabel.

Context {U : TextOps}.






End QueryAndLabel.



(** ** Associations of a code *)

Lemma ascii_compare_trans (a b c : ascii) (r : comparison) :
  r <> Eq -> Ascii.compare a b = r -> Ascii.compare b c = r -> Ascii.compare a c = r.
Proof.
  unfold Ascii.compare. intros Hr H1 H2. destruct r; [congruence| |].
  - apply N.compare_lt_iff in H1. apply N.compare_lt_iff in H2.
    apply N.compare_lt_iff. eapply N.lt_trans; eauto.
  - apply N.compare_gt_iff in H1. apply N.compare_gt_iff in H2.
    apply N.compare_gt_iff. eapply N.lt_trans; eauto.
Qed.

Lemma string_compare_lt_trans (a b c : string) :
  String.compare a b = Lt -> String.compare b c = Lt -> String.compare a c = Lt.
Proof.
  revert b c. induction a as [|x a IH]; intros [|y b] [|z c]; simpl; try congruence.
  destruct (Ascii.compare x y) eqn:Exy; try discriminate;
    destruct (Ascii.compare y z) eqn:Eyz; try discriminate.
  - apply Ascii.compare_eq_iff in Exy, Eyz. subst.
    replace (Ascii.compare z z) with Eq; [apply IH|].
    symmetry. unfold Ascii.compare. apply N.compare_refl.
  - apply Ascii.compare_eq_iff in Exy. subst. now rewrite Eyz.
  - apply Ascii.compare_eq_iff in Eyz. subst. now rewrite Exy.
  - intros _ _. now rewrite (ascii_compare_trans x y z Lt).
Qed.

Lemma string_compare_refl (a : string) : String.compare a a = Eq.
Proof.
  induction a as [|x a IH]; simpl; [reflexivity|].
  replace (Ascii.compare x x) with Eq; [exact IH|].
  symmetry. unfold Ascii.compare. apply N.compare_refl.
Qed.

Lemma string_leb_trans (a b c : string) :
  String.leb a b = true -> String.leb b c = true -> String.leb a c = true.
Proof.
  unfold String.leb.
  destruct (String.compare a b) eqn:Eab; try discriminate;
    destruct (String.compare b c) eqn:Ebc; try discriminate; intros _ _.
  - apply String.compare_eq_iff in Eab, Ebc. subst. now rewrite string_compare_refl.
  - apply String.compare_eq_iff in Eab. subst. now rewrite Ebc.
  - apply String.compare_eq_iff in Ebc. subst. now rewrite Eab.
  - now rewrite (string_compare_lt_trans a b c).
Qed.

Lemma association_le_total (x y : Association.row) :
  association_le x y = true \/ association_le y x = true.
Proof.
  unfold association_le.
  destruct (Association.association_type x), (Association.association_type y); simpl;
    auto using String.leb_total.
Qed.

Lemma association_le_trans (x y z : Association.row) :
  association_le x y = true -> association_le y z = true -> association_le x z = true.
Proof.
  unfold association_le.
  destruct (Association.association_type x), (Association.association_type y),
    (Association.association_type z); simpl; try discriminate; auto;
    apply string_leb_trans.
Qed.

(** X21.  [get_associations] lists every edge row of the (upper-cased)
    code once, anesthesia rows before gesture rows since the type names
    are compared as text, and inside a type in ascending associated code;
    label and ICR come from the catalog row of the target, if any. *)
Theorem associations_sorted_by_type_then_code {U : TextOps} (d : Db) (code : string) :
  Permutation
    (get_associations d code)
    (map (association_item d)
         (filter (fun a => Association.code a =? str_upper code) (associations d)))
  /\ StronglySorted
       (fun x y =>
          (AssocItem.association_type x = complementary_gesture ->
           AssocItem.association_type y = complementary_gesture)
          /\ (AssocItem.association_type x = AssocItem.association_type y ->
              String.leb (AssocItem.associated_code x) (AssocItem.associated_code y) = true))
       (get_associations d code).
Proof.
  unfold get_associations. split.
  - apply Permutation_map, sort_by_perm.
  - apply StronglySorted_map.
    eapply StronglySorted_impl;
      [|apply sort_by_sorted; [apply association_le_total|apply association_le_trans]].
    intros a b. unfold association_le, association_item. cbn.
    destruct (Association.association_type a), (Association.association_type b); simpl;
      intro H; split; auto; try discriminate; congruence.
Qed.

Example associations_of_AAAA001 :
  map (fun i => (AssocItem.associated_code i, AssocItem.association_type i,
                 AssocItem.activity i, AssocItem.label i))
      (get_associations (U := ascii_text) billing_db "aaaa001")
  = [ ("CCCC003", complementary_anesthesia, "anesthesia", Some "Anesthesie pour acte");
      ("BBBB002", complementary_gesture, "text", Some "Geste complementaire de test");
      ("BBBB002", complementary_gesture, "act123", Some "Geste complementaire de test");
      ("CCCC003", complementary_gesture, "text", Some "Anesthesie pour acte") ].
Proof. vm_compute. reflexivity. Qed.

(** ** Catalog builder: the code table *)

Section BuilderCodesFacts.

Context {U : TextOps}.
Variable py_float : string -> option Q.

Lemma safe_str_nonempty (val : option string) : safe_str val <> Some "".
Proof.
  unfold safe_str. destruct val as [s|]; [|discriminate].
  destruct (py_strip s =? "") eqn:E; [discriminate|].
  intro H. injection H as H. rewrite H in E. discriminate.
Qed.

Lemma code_line_length (row : list (option string)) (c l : string) :
  code_line row = Some (c, l) -> (List.length row <? 52)%nat = false.
Proof. unfold code_line. now destruct (List.length row <? 52)%nat. Qed.

Lemma code_line_spec (row : list (option string)) (c l : string) :
  code_line row = Some (c, l) ->
  CCAM_CODE_RE_match c = true /\ l <> ""
  /\ safe_str (cell row COL_code_sub) = Some c
  /\ safe_str (cell row COL_text) = Some l.
Proof.
  unfold code_line. destruct (List.length row <? 52)%nat; [discriminate|].
  destruct (safe_str (cell row COL_code_sub)) as [code|]; [|discriminate].
  destruct (CCAM_CODE_RE_match code) eqn:Hre; cbn [negb]; [|discriminate].
  match goal with
  | |- (if ?c then _ else _) = _ -> _ => destruct c; [discriminate|]
  end.
  destruct (safe_str (cell row COL_text)) as [t|] eqn:Ht; simpl; [|discriminate].
  destruct (t =? "") eqn:E; simpl; [discriminate|].
  intro H. injection H as <- <-. apply String.eqb_neq in E. auto.
Qed.

(** The edges of a row belong to its code line. *)
Lemma row_edges_code_line (row : list (option string)) (e : Association.row) :
  In e (row_edges row) ->
  exists l, code_line row = Some (Association.code e, l).
Proof.
  unfold row_edges, code_line.
  destruct (List.length row <? 52)%nat; [easy|].
  destruct (safe_str (cell row COL_code_sub)) as [code|]; [|easy].
  destruct (CCAM_CODE_RE_match code); cbn [negb]; [|easy].
  match goal with
  | |- In _ (if ?c then _ else _) -> _ => destruct c; [easy|]
  end.
  destruct (safe_str (cell row COL_text)) as [t|]; simpl; [|easy].
  destruct (t =? ""); simpl; [easy|].
  intro H. exists t.
  repeat (apply in_app_or in H; destruct H as [H|H];
          [apply column_edges_shape in H; destruct H as [-> _]; reflexivity|]).
  apply column_edges_shape in H. destruct H as [-> _]. reflexivity.
Qed.

Lemma replace_code_In (tbl : list CcamCode.row) (r x : CcamCode.row) :
  In x (replace_code tbl r) <->
  x = r \/ (In x tbl /\ CcamCode.code x <> CcamCode.code r).
Proof.
  unfold replace_code. rewrite in_app_iff, filter_In, negb_true_iff, String.eqb_neq.
  simpl. intuition.
Qed.

Lemma replace_code_keys (tbl : list CcamCode.row) (r : CcamCode.row) :
  NoDup (map CcamCode.code tbl) -> NoDup (map CcamCode.code (replace_code tbl r)).
Proof.
  intro Hnd. unfold replace_code. rewrite map_app. simpl.
  apply Permutation_NoDup with
    (l := CcamCode.code r
          :: map CcamCode.code
               (filter (fun x => negb (CcamCode.code x =? CcamCode.code r)) tbl)).
  - apply Permutation_cons_append.
  - constructor.
    + intro Hin. apply in_map_iff in Hin. destruct Hin as [x [Hc Hx]].
      apply filter_In in Hx. destruct Hx as [_ Hx].
      apply negb_true_iff, String.eqb_neq in Hx. congruence.
    + induction tbl as [|x tbl IH]; simpl; [constructor|].
      inversion Hnd as [|? ? Hnotin Hnd']; subst.
      destruct (negb (CcamCode.code x =? CcamCode.code r)); simpl; [|now apply IH].
      constructor; [|now apply IH].
      intro Hin. apply Hnotin. apply in_map_iff in Hin. destruct Hin as [y [Hc Hy]].
      apply filter_In in Hy. rewrite <- Hc. apply in_map. tauto.
Qed.

Lemma replace_code_present (tbl : list CcamCode.row) (r : CcamCode.row) (c : string) :
  In c (map CcamCode.code tbl) \/ c = CcamCode.code r ->
  In c (map CcamCode.code (replace_code tbl r)).
Proof.
  intro H. destruct (String.eqb_spec c (CcamCode.code r)) as [->|Hne].
  - apply in_map, replace_code_In. now left.
  - destruct H as [H|H]; [|contradiction].
    apply in_map_iff in H. destruct H as [x [<- Hx]].
    apply in_map, replace_code_In. right. split; [exact Hx|exact Hne].
Qed.

Lemma build_step_invariant (st : option string * list CcamCode.row)
  (row : list (option string)) :
  NoDup (map CcamCode.code (snd st)) /\ (forall r, In r (snd st) -> built_row r) ->
  NoDup (map CcamCode.code (snd (build_step py_float st row)))
  /\ (forall r, In r (snd (build_step py_float st row)) -> built_row r).
Proof.
  intros [Hnd Hall]. unfold build_step.
  destruct (List.length row <? 52)%nat; [auto|].
  destruct (code_line row) as [[c l]|] eqn:Hline; simpl; [|auto].
  apply code_line_spec in Hline. destruct Hline as [Hre [Hl _]].
  split; [now apply replace_code_keys|].
  intros r Hr. apply replace_code_In in Hr. destruct Hr as [->|[Hr _]]; [|now apply Hall].
  unfold built_row. simpl. repeat split; auto.
  apply safe_str_nonempty.
Qed.

Lemma build_fold_invariant (rows : list (list (option string)))
  (st : option string * list CcamCode.row) :
  NoDup (map CcamCode.code (snd st)) /\ (forall r, In r (snd st) -> built_row r) ->
  NoDup (map CcamCode.code (snd (fold_left (build_step py_float) rows st)))
  /\ (forall r, In r (snd (fold_left (build_step py_float) rows st)) -> built_row r).
Proof.
  revert st. induction rows as [|row rows IH]; intros st H; simpl; [exact H|].
  apply IH. now apply build_step_invariant.
Qed.

Lemma build_step_keeps (st : option string * list CcamCode.row)
  (row : list (option string)) (c : string) :
  In c (map CcamCode.code (snd st)) ->
  In c (map CcamCode.code (snd (build_step py_float st row))).
Proof.
  intro H. unfold build_step.
  destruct (List.length row <? 52)%nat; [exact H|].
  destruct (code_line row) as [[c' l]|]; simpl; [|exact H].
  apply replace_code_present. now left.
Qed.

Lemma build_fold_keeps (rows : list (list (option string)))
  (st : option string * list CcamCode.row) (c : string) :
  In c (map CcamCode.code (snd st)) ->
  In c (map CcamCode.code (snd (fold_left (build_step py_float) rows st))).
Proof.
  revert st. induction rows as [|row rows IH]; intros st H; simpl; [exact H|].
  apply IH. now apply build_step_keeps.
Qed.

Lemma build_step_adds (st : option string * list CcamCode.row)
  (row : list (option string)) (c l : string) :
  code_line row = Some (c, l) ->
  In c (map CcamCode.code (snd (build_step py_float st row))).
Proof.
  intro H. unfold build_step. rewrite (code_line_length row c l H), H. simpl.
  apply replace_code_present. now right.
Qed.

Lemma code_line_in_catalog (rows : list (list (option string)))
  (row : list (option string)) (c l : string) :
  In row (tl rows) ->
  code_line row = Some (c, l) ->
  In c (map CcamCode.code (build_codes py_float rows)).
Proof.
  intros Hin Hline. unfold build_codes.
  apply in_split in Hin. destruct Hin as [pre [post ->]].
  rewrite fold_left_app. simpl.
  apply build_fold_keeps. eapply build_step_adds; eauto.
Qed.

Lemma select_code_present (d : Db) (c : string) :
  In c (map CcamCode.code (ccam_codes d)) -> select_code d c <> None.
Proof.
  intros Hin Hnone. unfold select_code in Hnone.
  apply in_map_iff in Hin. destruct Hin as [r [Hc Hr]].
  pose proof (find_none _ _ Hnone r Hr) as H. simpl in H.
  rewrite Hc, String.eqb_refl in H. discriminate.
Qed.

End BuilderCodesFacts.

(** X22.  The code table the builder produces has one row per code; in
    every row the normalized label is the normalization of the label, the
    code matches the CCAM pattern and the label is not empty; and an end
    date is never the empty string, so that "has a true end date" (the
    checker's test) and "end date is not NULL" (the search filter) agree
    on a built catalog. *)
Theorem built_catalog_is_consistent {U : TextOps}
  (py_float : string -> option Q) (rows : list (list (option string))) :
  NoDup (map CcamCode.code (build_codes py_float rows))
  /\ (forall r, In r (build_codes py_float rows) ->
        built_row r
        /\ (truthy (CcamCode.date_end r) = true <-> CcamCode.date_end r <> None)).
Proof.
  unfold build_codes.
  destruct (build_fold_invariant py_float (tl rows) (None, [])) as [Hnd Hall].
  { split; [constructor|intros r []]. }
  split; [exact Hnd|].
  intros r Hr. specialize (Hall r Hr). split; [exact Hall|].
  destruct Hall as [_ [_ [_ Hd]]].
  destruct (CcamCode.date_end r) as [s|]; simpl.
  - split; [discriminate|]. intros _. apply negb_true_iff, String.eqb_neq. congruence.
  - split; [discriminate|congruence].
Qed.

Example build_sample_sheet :
  map (fun r => (CcamCode.code r, CcamCode.label_normalized r))
      (build_codes (U := ascii_text) (fun _ => None) sample_sheet)
  = [ ("AAAA001", "acte test chirurgical") ].
Proof. vm_compute. reflexivity. Qed.

(** X23.  In a database built from a sheet every edge starts at a code of
    the catalog; hence a code the checker reports as unknown is the source
    of no edge, and skipping its pairs hides no edge that starts at it. *)
Theorem built_edges_start_in_catalog {U : TextOps}
  (py_float : string -> option Q) (rows : list (list (option string))) :
  (forall e, In e (associations (build_db py_float rows)) ->
             absent (build_db py_float rows) (Association.code e) = false)
  /\ (forall codes c e,
        In (unknown_code c) (check_compatibility (build_db py_float rows) codes) ->
        In e (associations (build_db py_float rows)) ->
        Association.code e <> c).
Proof.
  assert (Hsrc : forall e, In e (associations (build_db py_float rows)) ->
                           absent (build_db py_float rows) (Association.code e) = false).
  { intros e He. cbn [build_db associations] in He.
    unfold parse_complementary_file in He.
    apply fold_insert_association_In in He. destruct He as [[]|He].
    apply in_flat_map in He. destruct He as [row [Hrow He]].
    apply row_edges_code_line in He. destruct He as [l Hl].
    pose proof (code_line_in_catalog py_float rows row _ l Hrow Hl) as Hin.
    unfold absent.
    destruct (select_code (build_db py_float rows) (Association.code e)) eqn:E;
      [reflexivity|].
    exfalso. revert E. apply select_code_present. exact Hin. }
  split; [exact Hsrc|].
  intros codes c e Hunk He Hc.
  assert (Habs : absent (build_db py_float rows) c = true).
  { assert (H : In (unknown_code c)
                   (filter is_unknown_code
                      (check_compatibility (build_db py_float rows) codes))).
    { apply filter_In. split; [exact Hunk|reflexivity]. }
    unfold check_compatibility in H.
    set (ucodes := map str_upper codes) in *.
    pose proof (flat_check_unknowns (build_db py_float rows) ucodes ucodes 0) as Hf.
    fold (enumerate ucodes) in Hf.
    destruct (flat_map _ (enumerate ucodes)) as [|x l]; simpl in H, Hf.
    - destruct H.
    - rewrite Hf in H. apply in_map_iff in H. destruct H as [c' [Hc' Hin]].
      injection Hc' as ->. apply filter_In in Hin. tauto. }
  rewrite <- Hc, (Hsrc e He) in Habs. discriminate.
Qed.

Lemma built_edges_start_in_catalog_witness :
  absent (build_db (U := ascii_text) (fun _ => None) sample_sheet)
    (Association.code (mk_edge "AAAA001" "CCCC003" complementary_gesture "text")) = false.
Proof.
  apply (proj1 (built_edges_start_in_catalog (U := ascii_text) (fun _ => None)
                  sample_sheet)).
  vm_compute. auto.
Defined.

(** The target of an edge need not be in the catalog: here [BBBB002] is
    declared by [AAAA001] and has no code line, so it is unknown to the
    checker and to the classifier. *)
Example built_edge_target_unknown :
  check_compatibility (U := ascii_text)
    (build_db (U := ascii_text) (fun _ => None) sample_sheet) ["AAAA001"; "BBBB002"]
  = [ has_association ("AAAA001", "BBBB002") complementary_gesture "text";
      has_association ("AAAA001", "BBBB002") complementary_gesture "act123";
      unknown_code "BBBB002" ].
Proof. vm_compute. reflexivity. Qed.

Lemma build_step_preserves_row {U : TextOps} (py_float : string -> option Q)
  (st : option string * list CcamCode.row) (row : list (option string))
  (r : CcamCode.row) :
  In r (snd st) ->
  (forall l, code_line row <> Some (CcamCode.code r, l)) ->
  In r (snd (build_step py_float st row)).
Proof.
  intros Hr Hother. unfold build_step.
  destruct (List.length row <? 52)%nat; [exact Hr|].
  destruct (code_line row) as [[c l]|] eqn:Hline; simpl; [|exact Hr].
  apply replace_code_In. right. split; [exact Hr|].
  simpl. intros <-. now apply (Hother l).
Qed.

Lemma build_fold_preserves_row {U : TextOps} (py_float : string -> option Q)
  (rows : list (list (option string))) (st : option string * list CcamCode.row)
  (r : CcamCode.row) :
  In r (snd st) ->
  (forall row l, In row rows -> code_line row <> Some (CcamCode.code r, l)) ->
  In r (snd (fold_left (build_step py_float) rows st)).
Proof.
  revert st. induction rows as [|row rows IH]; intros st Hr Hother; simpl; [exact Hr|].
  apply IH.
  - apply build_step_preserves_row; [exact Hr|]. intro l. apply Hother. now left.
  - intros row' l Hin. apply Hother. now right.
Qed.

Lemma unique_code {U : TextOps} (tbl : list CcamCode.row) (r r' : CcamCode.row) :
  NoDup (map CcamCode.code tbl) ->
  In r tbl -> In r' tbl -> CcamCode.code r' = CcamCode.code r -> r' = r.
Proof.
  induction tbl as [|x tbl IH]; simpl; [easy|].
  intro Hnd. inversion Hnd as [|? ? Hnotin Hnd']; subst.
  intros [->|Hr] [->|Hr'] Hc.
  - reflexivity.
  - exfalso. apply Hnotin. rewrite <- Hc. now apply in_map.
  - exfalso. apply Hnotin. rewrite Hc. now apply in_map.
  - now apply IH.
Qed.

(** X24.  [INSERT OR REPLACE]: the last code line of a code wins.  When
    no later row of the sheet is a code line of the same code, the table
    holds for that code exactly one row, made from that line: its label,
    the normalization of its label, its ICR and its end date. *)
Theorem last_code_line_wins {U : TextOps}
  (py_float : string -> option Q) (header : list (option string))
  (pre : list (list (option string))) (row : list (option string))
  (post : list (list (option string))) (c l : string) :
  code_line row = Some (c, l) ->
  (forall row' l', In row' post -> code_line row' <> Some (c, l')) ->
  exists r,
    In r (build_codes py_float (header :: pre ++ row :: post))
    /\ CcamCode.code r = c
    /\ CcamCode.label r = l
    /\ CcamCode.label_normalized r = normalize_for_search (PyStr l)
    /\ CcamCode.icr_public r = safe_float py_float (cell row COL_icr_public)
    /\ CcamCode.date_end r = safe_str (cell row COL_date_end)
    /\ (forall r', In r' (build_codes py_float (header :: pre ++ row :: post)) ->
                   CcamCode.code r' = c -> r' = r).
Proof.
  intros Hline Hpost.
  pose proof (proj1 (build_fold_invariant py_float (tl (header :: pre ++ row :: post))
                       (None, []) (conj (NoDup_nil _) (fun r (H : In r []) => match H with end))))
    as Hnd.
  unfold build_codes in *. cbn [tl] in *. rewrite fold_left_app in *. cbn [fold_left] in *.
  set (st := fold_left (build_step py_float) pre (None, [])) in *.
  assert (Hstep : exists r,
             In r (snd (build_step py_float st row))
             /\ CcamCode.code r = c /\ CcamCode.label r = l
             /\ CcamCode.label_normalized r = normalize_for_search (PyStr l)
             /\ CcamCode.icr_public r = safe_float py_float (cell row COL_icr_public)
             /\ CcamCode.date_end r = safe_str (cell row COL_date_end)).
  { unfold build_step. rewrite (code_line_length row c l Hline), Hline. cbn [snd].
    eexists. split; [apply replace_code_In; left; reflexivity|]. cbn. auto 10. }
  destruct Hstep as [r [Hr [Hc [Hl [Hn [Hi Hd]]]]]].
  assert (Hin : In r (snd (fold_left (build_step py_float) post
                             (build_step py_float st row)))).
  { apply build_fold_preserves_row; [exact Hr|].
    intros row' l' Hrow'. rewrite Hc. now apply Hpost. }
  exists r. repeat split; auto.
  intros r' Hr' Hc'. eapply unique_code; eauto. congruence.
Qed.

Example last_line_of_a_code :
  map (fun r => (CcamCode.code r, CcamCode.label r))
      (build_codes (U := ascii_text) (fun _ => None)
         [ sheet_row None None None None None None;
           sheet_row (Some "AAAA001") (Some "Ancien libelle") (Some "L") None None None;
           sheet_row (Some "BBBB002") (Some "Autre acte") (Some "L") None None None;
           sheet_row (Some "AAAA001") (Some "Nouveau libelle") None None None None ])
  = [ ("BBBB002", "Autre acte"); ("AAAA001", "Nouveau libelle") ].
Proof. vm_compute. reflexivity. Qed.

Lemma last_code_line_wins_witness :
  exists r,
    In r (build_codes (U := ascii_text) (fun _ => None)
            (sheet_row None None None None None None
             :: [ sheet_row (Some "AAAA001") (Some "Ancien libelle") None None None None ]
             ++ sheet_row (Some "AAAA001") (Some "Nouveau libelle") None None None None
             :: [ sheet_row (Some "BBBB002") (Some "Autre acte") None None None None ]))
    /\ CcamCode.code r = "AAAA001"
    /\ CcamCode.label r = "Nouveau libelle".
Proof.
  destruct (last_code_line_wins (U := ascii_text) (fun _ => None)
              (sheet_row None None None None None None)
              [ sheet_row (Some "AAAA001") (Some "Ancien libelle") None None None None ]
              (sheet_row (Some "AAAA001") (Some "Nouveau libelle") None None None None)
              [ sheet_row (Some "BBBB002") (Some "Autre acte") None None None None ]
              "AAAA001" "Nouveau libelle" eq_refl)
    as [r [Hr [Hc [Hl _]]]].
  - intros row' l' [<-|[]]. vm_compute. discriminate.
  - exists r. auto.
Defined.

(** ** Catalog builder: the chapter table *)

Example build_chapter_sheet :
  map (fun r => (Chapter.num r, Chapter.title r, Chapter.level r, Chapter.parent_num r))
      (build_chapters (U := ascii_text) chapter_sheet)
  = [ ("01", "Systeme nerveux", 0%nat, None);
      ("01.01", "Actes diagnostiques", 1%nat, Some "01");
      ("02.01", "Sans chapitre titre", 1%nat, Some "02") ].
Proof. vm_compute. reflexivity. Qed.

Section ChapterFacts.

Context {U : TextOps}.

Lemma insert_chapter_cases (tbl : list Chapter.row) (r : Chapter.row) :
  insert_chapter tbl r = tbl
  \/ (insert_chapter tbl r = tbl ++ [r] /\ ~ In (Chapter.num r) (map Chapter.num tbl)).
Proof.
  unfold insert_chapter.
  destruct (existsb (fun x => Chapter.num x =? Chapter.num r) tbl) eqn:E; [now left|].
  right. split; [reflexivity|].
  intro Hin. apply in_map_iff in Hin. destruct Hin as [x [Hx Hin]].
  apply not_true_iff_false in E. apply E. apply existsb_exists.
  exists x. split; [exact Hin|]. now apply String.eqb_eq.
Qed.

(** A turn of the level loop changes nothing or registers one chapter read
    from the row, with the parent of the current context. *)
Lemma register_chapter_cases (row : list (option string)) (st : ChapterState)
  (lc : nat * (nat * nat)) :
  register_chapter row st lc = st
  \/ exists n t,
       safe_str (cell row (fst (snd lc))) = Some n
       /\ safe_str (cell row (snd (snd lc))) = Some t
       /\ cur_chap (register_chapter row st lc) = cur_chap st
       /\ cur_subchap (register_chapter row st lc) = cur_subchap st
       /\ cur_para (register_chapter row st lc) = cur_para st
       /\ chapters (register_chapter row st lc)
          = insert_chapter (chapters st)
              {| Chapter.num := n; Chapter.title := t; Chapter.level := fst lc;
                 Chapter.parent_num :=
                   match fst lc with
                   | 1 => cur_chap st
                   | 2 => cur_subchap st
                   | 3 => cur_para st
                   | _ => None
                   end%nat |}.
Proof.
  unfold register_chapter.
  destruct (safe_str (cell row (fst (snd lc)))) as [n|]; [|now left].
  destruct (safe_str (cell row (snd (snd lc)))) as [t|]; [|now left].
  destruct (_ && _); [|now left].
  right. exists n, t. repeat split.
Qed.

Lemma or_current_from (new cur : option string) (p : string) :
  or_current new cur = Some p -> new = Some p \/ cur = Some p.
Proof. unfold or_current. destruct (truthy new); auto. Qed.

Lemma register_chapter_invariant (sheet : list (list (option string)))
  (row : list (option string)) (st : ChapterState) (lc : nat * (nat * nat)) :
  (fst lc <= 3)%nat ->
  chapters_invariant sheet st ->
  chapters_invariant sheet (register_chapter row st lc)
  /\ exists extra, chapters (register_chapter row st lc) = chapters st ++ extra.
Proof.
  intros Hlevel Hinv.
  destruct (register_chapter_cases row st lc)
    as [->|[n [t [Hn [Ht [Hc0 [Hc1 [Hc2 Hch]]]]]]]].
  { split; [exact Hinv|]. exists []. now rewrite app_nil_r. }
  unfold chapters_invariant in *. cbv beta zeta in *.
  destruct Hinv as [Hnd [Hall [H0 [H1 H2]]]].
  rewrite Hc0, Hc1, Hc2, Hch.
  destruct (insert_chapter_cases (chapters st)
              {| Chapter.num := n; Chapter.title := t; Chapter.level := fst lc;
                 Chapter.parent_num :=
                   match fst lc with
                   | 1 => cur_chap st
                   | 2 => cur_subchap st
                   | 3 => cur_para st
                   | _ => None
                   end%nat |}) as [->|[-> Hfresh]].
  { split; [tauto|]. exists []. now rewrite app_nil_r. }
  split; [|eexists; reflexivity].
  split; [|split; [|tauto]].
  - rewrite map_app. simpl. apply Permutation_NoDup with (l := n :: map Chapter.num (chapters st)).
    + apply Permutation_cons_append.
    + constructor; assumption.
  - intros r Hr. apply in_app_or in Hr. destruct Hr as [Hr|[<-|[]]]; [now apply Hall|].
    cbn [Chapter.level Chapter.num Chapter.title].
    split; [exact Hlevel|]. split.
    { intros ->. apply (safe_str_nonempty _ Hn). }
    split.
    { intros ->. apply (safe_str_nonempty _ Ht). }
    unfold parent_from. cbn [Chapter.level Chapter.parent_num].
    destruct (fst lc) as [|[|[|[|k]]]]; auto. intros p Hp. discriminate.
Qed.

Lemma chapter_step_invariant (sheet : list (list (option string)))
  (row : list (option string)) (st : ChapterState) :
  In row sheet ->
  chapters_invariant sheet st ->
  chapters_invariant sheet (chapter_step st row)
  /\ exists extra, chapters (chapter_step st row) = chapters st ++ extra.
Proof.
  intros Hrow Hinv. unfold chapter_step.
  destruct (List.length row <? 52)%nat.
  { split; [exact Hinv|]. exists []. now rewrite app_nil_r. }
  set (st' := {| cur_chap := _ |}).
  assert (Hinv' : chapters_invariant sheet st').
  { unfold chapters_invariant in *. cbv beta zeta in *.
    destruct Hinv as [Hnd [Hall [H0 [H1 H2]]]].
    subst st'. cbn [cur_chap cur_subchap cur_para chapters].
    split; [exact Hnd|]. split; [exact Hall|].
    split; [|split]; intros p Hp; apply or_current_from in Hp;
      (destruct Hp as [Hp|Hp]; [exists row; auto|auto]). }
  assert (Hsame : chapters st' = chapters st) by reflexivity.
  rewrite <- Hsame. clearbody st'. clear Hsame Hinv.
  unfold enumerate, chapter_columns. cbn [enumerate_from fold_left].
  destruct (register_chapter_invariant sheet row st' (0%nat, (42, 43)%nat))
    as [I1 [e1 E1]]; [simpl; lia|exact Hinv'|].
  destruct (register_chapter_invariant sheet row _ (1%nat, (44, 45)%nat) ltac:(simpl; lia) I1)
    as [I2 [e2 E2]].
  destruct (register_chapter_invariant sheet row _ (2%nat, (46, 47)%nat) ltac:(simpl; lia) I2)
    as [I3 [e3 E3]].
  destruct (register_chapter_invariant sheet row _ (3%nat, (48, 49)%nat) ltac:(simpl; lia) I3)
    as [I4 [e4 E4]].
  split; [exact I4|].
  exists (e1 ++ e2 ++ e3 ++ e4). rewrite E4, E3, E2, E1. now rewrite <- !app_assoc.
Qed.

Lemma chapter_fold_invariant (sheet rows : list (list (option string)))
  (st : ChapterState) :
  (forall row, In row rows -> In row sheet) ->
  chapters_invariant sheet st ->
  chapters_invariant sheet (fold_left chapter_step rows st)
  /\ exists extra, chapters (fold_left chapter_step rows st) = chapters st ++ extra.
Proof.
  revert st. induction rows as [|row rows IH]; intros st Hsub Hinv; simpl.
  { split; [exact Hinv|]. exists []. now rewrite app_nil_r. }
  destruct (chapter_step_invariant sheet row st) as [I1 [e1 E1]];
    [apply Hsub; now left|exact Hinv|].
  destruct (IH (chapter_step st row)) as [I2 [e2 E2]];
    [intros r Hr; apply Hsub; now right|exact I1|].
  split; [exact I2|]. exists (e1 ++ e2). now rewrite E2, E1, <- app_assoc.
Qed.

End ChapterFacts.

(** X25.  The chapter table has one row per number; a row has a level
    from 0 to 3, a number and a title that are not empty, no parent at
    level 0, and at a deeper level its parent, if any, is a number read in
    the column of the level just above in some row of the sheet.  The
    table only grows: further rows of the sheet never change a chapter
    already registered, so the first title seen for a number is kept. *)
Theorem chapter_table_is_append_only {U : TextOps}
  (header : list (option string)) (rows more : list (list (option string))) :
  NoDup (map Chapter.num (build_chapters (header :: rows)))
  /\ (forall r, In r (build_chapters (header :: rows)) ->
        (Chapter.level r <= 3)%nat
        /\ Chapter.num r <> "" /\ Chapter.title r <> ""
        /\ parent_from
             (fun k p => exists row, In row rows
                                     /\ safe_str (cell row (level_column k)) = Some p)
             r)
  /\ (exists extra,
        build_chapters (header :: rows ++ more) = build_chapters (header :: rows) ++ extra).
Proof.
  unfold build_chapters. cbn [tl].
  assert (Hinit : forall sheet, chapters_invariant sheet initial_chapters).
  { intro sheet. unfold chapters_invariant, initial_chapters. cbn.
    split; [constructor|]. split; [intros r []|].
    split; [|split]; intros p Hp; discriminate. }
  destruct (chapter_fold_invariant rows rows initial_chapters (fun _ H => H) (Hinit rows))
    as [[Hnd [Hall _]] _].
  split; [exact Hnd|]. split; [exact Hall|].
  rewrite fold_left_app.
  destruct (chapter_fold_invariant (rows ++ more) more
              (fold_left chapter_step rows initial_chapters)) as [_ Hext].
  - intros row Hr. apply in_or_app. now right.
  - apply (chapter_fold_invariant (rows ++ more) rows initial_chapters).
    + intros row Hr. apply in_or_app. now left.
    + apply Hinit.
  - exact Hext.
Qed.
